(** * Valuation formulas of the stock analyzer (valuations.py)

    A shallow embedding of the four valuation functions of
    [valuations.py] and the properties of its specification.

    Numbers.  Python floats and numpy float64 values are idealised as real
    numbers, as the specification's data model does ("plain real numbers"):
    rounding, overflow and the non-finite values inf and nan are outside the
    model.  What is kept is which operations raise.  A division between two
    Python floats raises ZeroDivisionError on a zero divisor ([float_div]);
    a numpy division never raises, it yields inf or nan with a warning, so
    the model returns normally there ([Rdiv], whose value at a zero divisor
    has no meaning: no proof below uses it).

    Integers ([len], indices, periods, loop counters) are [Z]; arrays are
    [list R]; exceptions are the [Raise] results of an error monad; the
    global random generator of numpy is a state that is passed explicitly.

    The signature of [div_discount_model] in the source lists parameters
    without a default value after parameters with one, which Python refuses
    when it compiles the module.  The embedding models the body of each
    function as it is written and takes every parameter explicitly. *)

From Stdlib Require Import Reals Lra Lia ZArith.
From stdpp Require Import base list strings gmap.
Local Open Scope R_scope.

(** ** The Python run-time: exceptions, indexing, loops *)

Module Py.

Inductive exn : Type :=
| IndexError
| ZeroDivisionError
| ValueError
| NameError (name : string)
| AttributeError (attr : string).

Inductive result (A : Type) : Type :=
| Ok (a : A)
| Raise (e : exn).
Arguments Ok {A} a.
Arguments Raise {A} e.

Definition bind {A B : Type} (c : result A) (k : A -> result B) : result B :=
  match c with
  | Ok a => k a
  | Raise e => Raise e
  end.

Definition raises {A : Type} (c : result A) : Prop := exists e, c = Raise e.
Definition returns {A : Type} (c : result A) : Prop := exists a, c = Ok a.

(** [len(l)] *)
Definition len {A : Type} (l : list A) : Z := Z.of_nat (length l).

(** The position a Python index denotes in a sequence: [-1] is the last
    element, and an index outside [-len, len) denotes none. *)
Definition py_index {A : Type} (l : list A) (i : Z) : option nat :=
  if bool_decide (0 <= i < len l)%Z then Some (Z.to_nat i)
  else if bool_decide (- len l <= i < 0)%Z then Some (Z.to_nat (len l + i))
  else None.

(** [l[i]] *)
Definition getitem (l : list R) (i : Z) : result R :=
  match py_index l i with
  | Some k => match l !! k with Some x => Ok x | None => Raise IndexError end
  | None => Raise IndexError
  end.

(** [l[i] = v], on a numpy array: the array after the assignment. *)
Definition setitem (l : list R) (i : Z) (v : R) : result (list R) :=
  match py_index l i with
  | Some k => Ok (<[k:=v]> l)
  | None => Raise IndexError
  end.

(** [x / y] on two Python floats. *)
Definition float_div (x y : R) : result R :=
  if Req_dec_T y 0 then Raise ZeroDivisionError else Ok (x / y).

(** [xrange(start, stop)] *)
Definition xrange (start stop : Z) : list Z :=
  map (fun k => (start + Z.of_nat k)%Z) (seq 0 (Z.to_nat (stop - start))).

(** [for x in xs: s = body(x, s)], stopping at the first exception. *)
Fixpoint for_in {S : Type} (xs : list Z) (body : Z -> S -> result S) (s : S)
  : result S :=
  match xs with
  | [] => Ok s
  | x :: xs' => bind (body x s) (for_in xs' body)
  end.

(** The builtin [sum]: a left fold from [0]. *)
Definition py_sum (l : list R) : R := fold_left Rplus l 0.

(** Objects a module-level or builtin name can be bound to. *)
Inductive pyvalue : Type :=
| PyNone
| PyBool (b : bool)
| PyStr (s : string)
| PyModule (name : string)
| PyFunction (name : string)
| PyType (name : string).

(** The names of Python 2's builtin module that are functions, types and
    exceptions. *)
Definition builtin_functions : list string :=
  ["abs"; "all"; "any"; "apply"; "bin"; "callable"; "chr"; "cmp"; "coerce";
   "compile"; "delattr"; "dir"; "divmod"; "eval"; "execfile"; "filter";
   "format"; "getattr"; "globals"; "hasattr"; "hash"; "hex"; "id"; "input";
   "intern"; "isinstance"; "issubclass"; "iter"; "len"; "locals"; "map";
   "max"; "min"; "next"; "oct"; "open"; "ord"; "pow"; "range"; "raw_input";
   "reduce"; "reload"; "repr"; "round"; "setattr"; "sorted"; "sum"; "unichr";
   "vars"; "zip"; "__import__"; "exit"; "quit"; "help"; "copyright";
   "credits"; "license"]%string.

Definition builtin_types : list string :=
  ["basestring"; "bool"; "buffer"; "bytearray"; "bytes"; "classmethod";
   "complex"; "dict"; "enumerate"; "file"; "float"; "frozenset"; "int";
   "list"; "long"; "memoryview"; "object"; "property"; "reversed"; "set";
   "slice"; "staticmethod"; "str"; "super"; "tuple"; "type"; "unicode";
   "xrange";
   "BaseException"; "Exception"; "StandardError"; "ArithmeticError";
   "AssertionError"; "AttributeError"; "BufferError"; "EOFError";
   "EnvironmentError"; "FloatingPointError"; "GeneratorExit"; "IOError";
   "ImportError"; "IndentationError"; "IndexError"; "KeyError";
   "KeyboardInterrupt"; "LookupError"; "MemoryError"; "NameError";
   "NotImplementedError"; "OSError"; "OverflowError"; "ReferenceError";
   "RuntimeError"; "StopIteration"; "SyntaxError"; "SystemError";
   "SystemExit"; "TabError"; "TypeError"; "UnboundLocalError";
   "UnicodeDecodeError"; "UnicodeEncodeError"; "UnicodeError";
   "UnicodeTranslateError"; "ValueError"; "ZeroDivisionError";
   "Warning"; "BytesWarning"; "DeprecationWarning"; "FutureWarning";
   "ImportWarning"; "PendingDeprecationWarning"; "RuntimeWarning";
   "SyntaxWarning"; "UnicodeWarning"; "UserWarning"]%string.

Definition builtins : gmap string pyvalue :=
  list_to_map
    ([("None", PyNone); ("True", PyBool true); ("False", PyBool false);
      ("__debug__", PyBool true); ("Ellipsis", PyNone);
      ("NotImplemented", PyNone); ("__name__", PyStr "__builtin__");
      ("__doc__", PyStr "Built-in functions, exceptions, and other objects.");
      ("__package__", PyNone)]%string
     ++ map (fun f => (f, PyFunction f)) builtin_functions
     ++ map (fun t => (t, PyType t)) builtin_types).

(** Reading a name that is not local to the running function: the
    module's globals, then the builtins, else NameError. *)
Definition load_global (globals : gmap string pyvalue) (name : string)
  : result pyvalue :=
  match globals !! name with
  | Some v => Ok v
  | None =>
      match builtins !! name with
      | Some v => Ok v
      | None => Raise (NameError name)
      end
  end.

(** [v.attr] for the attributes this program can reach: those of the numpy
    module. *)
Definition getattr (v : pyvalue) (attr : string) : result pyvalue :=
  match v with
  | PyModule "numpy" =>
      if bool_decide (attr ∈ ["array"; "mean"; "std"; "zeros"; "arange";
                              "concatenate"; "sum"]%string)
      then Ok (PyFunction attr)
      else if bool_decide (attr = "random"%string)
      then Ok (PyModule "numpy.random")
      else Raise (AttributeError attr)
  | PyModule "numpy.random" =>
      if bool_decide (attr = "normal"%string) then Ok (PyFunction attr)
      else Raise (AttributeError attr)
  | _ => Raise (AttributeError attr)
  end.

(** Truth value of an object in a condition. *)
Definition truthy (v : pyvalue) : bool :=
  match v with
  | PyNone => false
  | PyBool b => b
  | PyStr s => match s with EmptyString => false | String _ _ => true end
  | PyModule _ | PyFunction _ | PyType _ => true
  end.

(** A bool used as a number. *)
Definition bool_to_R (b : bool) : R := if b then 1 else 0.

End Py.
Import Py.

Notation "'let*' x ':=' c 'in' k" := (bind c (fun x => k))
  (at level 10, x name, c at level 100, k at level 200).
Notation "'let*' ' p ':=' c 'in' k" := (bind c (fun x => match x with p => k end))
  (at level 10, p pattern, c at level 100, k at level 200).

(** ** numpy *)

Module Np.

(** [np.arange(start, stop)] on integers. *)
Definition arange (start stop : Z) : list Z := xrange start stop.

(** [np.zeros(shape=n)] *)
Definition zeros (n : nat) : list R := replicate n 0.

(** [x ** a] for a float [x] and an integer array [a]. *)
Definition rpow (x : R) (a : list Z) : list R := map (powerRZ x) a.

(** [c * a] for a scalar [c] and an array [a]. *)
Definition scale (c : R) (a : list R) : list R := map (Rmult c) a.

(** [a + b] and [a / b] on arrays of one shape. *)
Definition add (a b : list R) : list R := zip_with Rplus a b.
Definition div (a b : list R) : list R := zip_with Rdiv a b.

(** [np.sum(a)], [a.sum()] *)
Definition sum (a : list R) : R := foldr Rplus 0 a.

(** [np.mean(a)] *)
Definition mean (a : list R) : R := sum a / INR (length a).

(** [np.std(a, ddof=ddof)]: the root of the sum of squared deviations from
    the mean over [len(a) - ddof]. *)
Definition std (a : list R) (ddof : Z) : R :=
  sqrt (sum (map (fun x => (x - mean a) ^ 2) a) / IZR (len a - ddof)).

(** [x ** y] on floats with a fractional exponent [y].  For a positive base
    it is [exp (y * ln x)]; a zero base with a positive exponent gives 0.
    Elsewhere numpy gives nan or inf, values the model does not have: the
    result there has no meaning, and a theorem on the value of a power
    assumes a base that is positive, or zero with a positive exponent. *)
Definition float_power (x y : R) : R :=
  if Rlt_dec 0 x then Rpower x y
  else if Req_dec_T x 0 then (if Rlt_dec 0 y then 0 else 1)
  else 0.

(** The global generator [np.random]: the stream of standard normal draws
    it will produce, and how many have been consumed. *)
Record RandomState : Type := mkRandomState {
  draws : nat -> R;
  cursor : nat
}.

Definition advance (st : RandomState) (k : nat) : RandomState :=
  mkRandomState (draws st) (cursor st + k).

(** [np.random.normal(scale=scale, size=size)]: [loc + scale * z] for the
    next [size] standard normal draws [z], with [loc = 0].  A negative scale
    raises ValueError. *)
Definition random_normal (scale : R) (size : nat) (st : RandomState)
  : result (list R * RandomState) :=
  if Rlt_dec scale 0 then Raise ValueError
  else Ok (map (fun k => 0 + scale * draws st (cursor st + k)) (seq 0 size),
           advance st size).

End Np.

(** ** valuations.py *)

Module Valuations.

(** [gordon_growth_model(current_div, const_growth, discount)]: a division
    of Python floats. *)
Definition gordon_growth_model (current_div const_growth discount : R)
  : result R :=
  float_div (current_div * (1 + const_growth)) (discount - const_growth).

(** [div_discount_model]: the two projected phases, the terminal value as a
    one-element array, all discounted at indices [1 .. len] and summed.
    [proj2[len(proj2)-1]] is a numpy scalar, so the division by
    [discount - const_growth] is numpy's. *)
Definition div_discount_model (current_div discount div_growth_rate1 : R)
    (div_period1 : Z) (div_growth_rate2 : R) (div_period2 : Z)
    (const_growth : R) : result R :=
  let proj1 :=
    Np.scale current_div
      (Np.rpow (1 + div_growth_rate1) (Np.arange 1 (div_period1 + 1))) in
  let* last1 := getitem proj1 (len proj1 - 1) in
  let proj2 :=
    Np.scale last1
      (Np.rpow (1 + div_growth_rate2) (Np.arange 1 (div_period2 + 1))) in
  let* last2 := getitem proj2 (len proj2 - 1) in
  let const := [ (last2 * (1 + const_growth)) / (discount - const_growth) ] in
  let dis :=
    Np.div (proj1 ++ proj2 ++ const)
      (Np.rpow (1 + discount)
         (Np.arange 1 (len proj1 + len proj2 + len const + 1))) in
  let val := Np.sum dis in
  Ok val.

(** The names bound at module level: those every module has, the import
    and the four functions. *)
Definition module_globals : gmap string pyvalue :=
  {[ "__name__" := PyStr "valuations";
     "__file__" := PyStr "valuations.py";
     "__doc__" := PyNone;
     "__package__" := PyNone;
     "__builtins__" := PyModule "__builtin__";
     "np" := PyModule "numpy";
     "discount_cash_flow" := PyFunction "discount_cash_flow";
     "ben_graham_formula" := PyFunction "ben_graham_formula";
     "div_discount_model" := PyFunction "div_discount_model";
     "gordon_growth_model" := PyFunction "gordon_growth_model" ]}%string.

(** [ben_graham_formula(eps, proj_growth, risk_free_rate, safe_eps,
    safe_growth, adjust)].  The condition of the base constant reads
    [safe.eps]; [safe] is no parameter and is never assigned in the
    function, so it is read as a global.  [eps[10]] is a numpy scalar and
    its division is numpy's; [adjust * ...] is a Python float and its
    division is Python's. *)
Definition ben_graham_formula (eps : list R) (proj_growth risk_free_rate : R)
    (safe_eps safe_growth adjust : bool) : result (R * option R) :=
  let adjusted_eps := if adjust then Some (Np.mean eps) else None in
  let* safe := load_global module_globals "safe" in
  let* safe_dot_eps := getattr safe "eps" in
  let const := if truthy safe_dot_eps then 7 else 8 in
  let g := if safe_growth then 1.5 else 2 in
  let* eps10 := getitem eps 10 in
  let val :=
    (eps10 * (const + g * (proj_growth * 100) * 4.4)) / (risk_free_rate * 100) in
  let* val_adj :=
    (if adjust
     then let* v := float_div
                      (bool_to_R adjust * (const + g * (proj_growth * 100) * 4.4))
                      (risk_free_rate * 100) in
          Ok (Some v)
     else Ok None) in
  Ok (val, val_adj).

(** The projection of one trial of [discount_cash_flow]: [proj], [proj2]
    and their concatenation [projtotal]. *)
Definition dcf_project (fcf : list R) (proj_rate1 proj_rate2 : R)
    (st : Np.RandomState) : result (list R * Np.RandomState) :=
  let* fcf9 := getitem fcf 9 in
  let* '(noise, st) := Np.random_normal (Np.std fcf 1) 10 st in
  let proj :=
    Np.add (Np.scale fcf9 (Np.rpow (1 + proj_rate1) (Np.arange 1 11))) noise in
  let* proj9 := getitem proj 9 in
  let* '(noise2, st) := Np.random_normal (Np.std fcf 1) 10 st in
  let proj2 :=
    Np.add (Np.scale proj9 (Np.rpow (1 + proj_rate2) (Np.arange 1 11))) noise2 in
  let projtotal := proj ++ proj2 in
  Ok (projtotal, st).

(** The body of the simulation loop, for the loop counter [i]; the state
    it updates is the two result arrays and the random generator. *)
Definition dcf_trial (fcf : list R) (proj_rate1 proj_rate2 discount d shares : R)
    (i : Z) (s : list R * list R * Np.RandomState)
  : result (list R * list R * Np.RandomState) :=
  let '(val1numbers, val2numbers, st) := s in
  let* '(projtotal, st) := dcf_project fcf proj_rate1 proj_rate2 st in
  let dis := Np.div projtotal (Np.rpow (1 + discount) (Np.arange 1 21)) in
  let dis2 := Np.div projtotal (Np.rpow (1 + d) (Np.arange 1 21)) in
  let val1 := Np.sum dis / shares in
  let* val1numbers := setitem val1numbers i val1 in
  let val2 := py_sum dis2 / shares in
  let* val2numbers := setitem val2numbers i val2 in
  Ok (val1numbers, val2numbers, st).

(** [discount_cash_flow(fcf, proj_rate1, proj_rate2, discount, shares,
    beta)], run from the generator state [st]: the returned triple and the
    generator state it leaves.  [n] is an int, so [1.0/n] is a division of
    Python floats; [fcf[n]/fcf[0]] is numpy's. *)
Definition discount_cash_flow (fcf : list R)
    (proj_rate1 proj_rate2 discount shares beta : R) (st : Np.RandomState)
  : result ((R * list R * list R) * Np.RandomState) :=
  let n := (len fcf - 1)%Z in
  let* fcf0 := getitem fcf 0 in
  let* fcf := (if Rlt_dec fcf0 0 then setitem fcf 0 (Np.mean fcf) else Ok fcf) in
  let* fcfn := getitem fcf n in
  let* fcf0 := getitem fcf 0 in
  let* exponent := float_div 1 (IZR n) in
  let cagr := Np.float_power (fcfn / fcf0) exponent - 1 in
  let val1numbers := Np.zeros 100 in
  let val2numbers := Np.zeros 100 in
  let* d := float_div (2.5 + beta * (9.11 - 2.5)) 100 in
  let* '(val1numbers, val2numbers, st) :=
    for_in (xrange 0 100)
      (dcf_trial fcf proj_rate1 proj_rate2 discount d shares)
      (val1numbers, val2numbers, st) in
  Ok ((cagr, val1numbers, val2numbers), st).

End Valuations.
Import Valuations.

(** ** The specification's formulas *)

Module Spec.

(** The sum of the cash flows [xs], the first one discounted at period
    index [k], the next at [k + 1], and so on. *)
Fixpoint pv_from (k : nat) (rate : R) (xs : list R) : R :=
  match xs with
  | [] => 0
  | x :: xs' => x / (1 + rate) ^ k + pv_from (S k) rate xs'
  end.

(** Discounting at period indices 1, 2, ... *)
Definition present_value (rate : R) (xs : list R) : R := pv_from 1 rate xs.

(** The history after preprocessing: a negative earliest observation is
    replaced by the mean of the full history. *)
Definition preprocessed (history : list R) : list R :=
  match history with
  | [] => []
  | first :: rest =>
      if Rlt_dec first 0 then Np.mean history :: rest else history
  end.

(** [cagr = (last/first)^(1/(n-1)) - 1] for a history of length [n], the
    first observation being the preprocessed one. *)
Definition cagr (history : list R) : R :=
  let n := INR (length history) in
  let first := hd 0 (preprocessed history) in
  let last := List.last history 0 in
  Np.float_power (last / first) (1 / (n - 1)) - 1.

(** [capm_rate = (2.5 + beta * (9.11 - 2.5)) / 100] *)
Definition capm_rate (beta : R) : R := (2.5 + beta * (9.11 - 2.5)) / 100.

(** Ten years of compounding from [start] at [rate], year [k + 1] being
    perturbed by [sigma * z k]. *)
Definition noisy_compound (start rate sigma : R) (z : nat -> R) : list R :=
  map (fun k => start * (1 + rate) ^ S k + sigma * z k) (seq 0 10).

(** The 20 projected values of a trial that starts with the generator in
    state [st]: ten years from the observation at index 9, ten more from the
    last of these, the noise being the next 20 draws scaled by the sample
    standard deviation of the series. *)
Definition projected (series : list R) (rate1 rate2 : R) (st : Np.RandomState)
  : list R :=
  let sigma := Np.std series 1 in
  let z := fun k => Np.draws st (Np.cursor st + k) in
  let proj := noisy_compound (nth 9 series 0) rate1 sigma z in
  let proj2 :=
    noisy_compound (nth 9 proj 0) rate2 sigma (fun k => z (10 + k)%nat) in
  proj ++ proj2.

(** The sample standard deviation with Bessel's correction: the divisor
    is [n - 1]. *)
Definition sample_std (xs : list R) : R :=
  let n := INR (length xs) in
  let m := Np.sum xs / n in
  sqrt (Np.sum (map (fun x => (x - m) ^ 2) xs) / (n - 1)).

(** The Graham value for a given earnings figure. *)
Definition graham_value (e proj_growth risk_free_rate : R)
    (conservative_base conservative_multiplier : bool) : R :=
  let base := if conservative_base then 7 else 8 in
  let multiplier := if conservative_multiplier then 1.5 else 2 in
  e * (base + multiplier * proj_growth * 100 * 4.4) / (risk_free_rate * 100).

End Spec.
Import Spec.

(** The 20 values projected from [start] when no noise is added: ten years
    at [rate1], then ten years at [rate2] from the tenth value. *)
Definition steady_projection (start rate1 rate2 : R) : list R :=
  map (fun k => start * (1 + rate1) ^ S k) (seq 0 10)
  ++ map (fun k => start * (1 + rate1) ^ 10 * (1 + rate2) ^ S k) (seq 0 10).

(** ** Properties *)

Lemma float_div_ok (x y : R) : y <> 0 -> float_div x y = Ok (x / y).
Proof.
  intros Hy. unfold float_div. destruct (Req_dec_T y 0); [contradiction | reflexivity].
Qed.

Lemma float_div_zero (x : R) : float_div x 0 = Raise ZeroDivisionError.
Proof.
  unfold float_div. destruct (Req_dec_T 0 0); [reflexivity | contradiction].
Qed.

Lemma gordon_value (D g d : R) :
  d <> g -> gordon_growth_model D g d = Ok (D * (1 + g) / (d - g)).
Proof.
  intros H. unfold gordon_growth_model. apply float_div_ok. lra.
Qed.

(** C10: on valid inputs (current_div > 0, discount > const_growth > -1)
    [gordon_growth_model] returns a value that is strictly increasing in
    [current_div], strictly increasing in [const_growth] (as long as the
    larger growth rate stays below the discount rate) and strictly
    decreasing in [discount]. *)
Theorem gordon_growth_model_monotone (D g d : R) :
  0 < D -> -1 < g -> g < d ->
  exists v, gordon_growth_model D g d = Ok v /\
    (forall D', D < D' ->
       exists v', gordon_growth_model D' g d = Ok v' /\ v < v') /\
    (forall g', g < g' -> g' < d ->
       exists v', gordon_growth_model D g' d = Ok v' /\ v < v') /\
    (forall d', d < d' ->
       exists v', gordon_growth_model D g d' = Ok v' /\ v' < v).
Proof.
  intros HD Hg Hd.
  exists (D * (1 + g) / (d - g)). split; [apply gordon_value; lra |].
  assert (Hinv : 0 < / (d - g)) by (apply Rinv_0_lt_compat; lra).
  repeat split.
  - intros D' HD'. eexists. split; [apply gordon_value; lra |].
    unfold Rdiv. apply Rmult_lt_compat_r; [assumption | nra].
  - intros g' Hg' Hg'd. eexists. split; [apply gordon_value; lra |].
    assert (Hinv' : 0 < / (d - g')) by (apply Rinv_0_lt_compat; lra).
    assert (Hlt : / (d - g) < / (d - g')).
    { apply Rinv_lt_contravar; [| lra]. apply Rmult_lt_0_compat; lra. }
    unfold Rdiv.
    apply Rlt_trans with (D * (1 + g') * / (d - g)).
    + apply Rmult_lt_compat_r; [assumption | nra].
    + apply Rmult_lt_compat_l; [nra | assumption].
  - intros d' Hd'. eexists. split; [apply gordon_value; lra |].
    assert (Hlt : / (d' - g) < / (d - g)).
    { apply Rinv_lt_contravar; [| lra]. apply Rmult_lt_0_compat; lra. }
    unfold Rdiv. apply Rmult_lt_compat_l; [nra | assumption].
Qed.

Lemma gordon_growth_model_monotone_witness :
  exists v, gordon_growth_model 100 0.03 0.08 = Ok v /\
    (forall D', 100 < D' ->
       exists v', gordon_growth_model D' 0.03 0.08 = Ok v' /\ v < v') /\
    (forall g', 0.03 < g' -> g' < 0.08 ->
       exists v', gordon_growth_model 100 g' 0.08 = Ok v' /\ v < v') /\
    (forall d', 0.08 < d' ->
       exists v', gordon_growth_model 100 0.03 d' = Ok v' /\ v' < v).
Proof.
  apply (gordon_growth_model_monotone 100 0.03 0.08); lra.
Defined.

(** *** Indexing and ranges *)

Lemma getitem_nat (l : list R) (k : nat) (x : R) :
  l !! k = Some x -> getitem l (Z.of_nat k) = Ok x.
Proof.
  intros H. pose proof (lookup_lt_Some _ _ _ H) as Hlt.
  unfold getitem, py_index, len.
  rewrite bool_decide_eq_true_2 by lia.
  rewrite Nat2Z.id, H. reflexivity.
Qed.

Lemma getitem_out_of_range (l : list R) (i : Z) :
  (len l <= i)%Z -> (0 <= i)%Z -> getitem l i = Raise IndexError.
Proof.
  intros H H0. unfold getitem, py_index.
  rewrite bool_decide_eq_false_2 by lia.
  rewrite bool_decide_eq_false_2 by lia. reflexivity.
Qed.

Lemma getitem_last (l : list R) (x : R) :
  getitem (l ++ [x]) (len (l ++ [x]) - 1) = Ok x.
Proof.
  unfold len. rewrite length_app. simpl.
  replace (Z.of_nat (length l + 1) - 1)%Z with (Z.of_nat (length l)) by lia.
  apply getitem_nat. apply list_lookup_middle. reflexivity.
Qed.

Lemma getitem_empty_last : getitem [] (len (@nil R) - 1) = Raise IndexError.
Proof. reflexivity. Qed.

Lemma xrange_cons (a b : Z) :
  (a < b)%Z -> xrange a b = a :: xrange (a + 1) b.
Proof.
  intros H. unfold xrange.
  replace (Z.to_nat (b - a)) with (S (Z.to_nat (b - (a + 1)))) by lia.
  simpl. f_equal; [lia |].
  rewrite <- fmap_S_seq, <- list_fmap_compose.
  apply list_fmap_ext. intros _ k _. simpl. lia.
Qed.

Lemma xrange_nil (a b : Z) : (b <= a)%Z -> xrange a b = [].
Proof.
  intros H. unfold xrange. replace (Z.to_nat (b - a)) with 0%nat by lia.
  reflexivity.
Qed.

Lemma arange_from_nat (a n : nat) :
  Np.arange (Z.of_nat a) (Z.of_nat a + Z.of_nat n) = map Z.of_nat (seq a n).
Proof.
  revert a. induction n as [| n IH]; intros a.
  - apply xrange_nil. lia.
  - unfold Np.arange in *. rewrite xrange_cons by lia. simpl. f_equal.
    replace (Z.of_nat a + 1)%Z with (Z.of_nat (S a)) by lia.
    replace (Z.of_nat a + Z.of_nat (S n))%Z
      with (Z.of_nat (S a) + Z.of_nat n)%Z by lia.
    apply IH.
Qed.

Lemma arange_periods (p : Z) :
  Np.arange 1 (p + 1) = map Z.of_nat (seq 1 (Z.to_nat p)).
Proof.
  destruct (Z_lt_le_dec 0 p) as [Hp | Hp].
  - rewrite <- arange_from_nat. f_equal. lia.
  - replace (Z.to_nat p) with 0%nat by lia. apply xrange_nil. lia.
Qed.

Lemma rpow_nat (x : R) (l : list nat) :
  Np.rpow x (map Z.of_nat l) = map (pow x) l.
Proof.
  unfold Np.rpow. rewrite map_map. apply map_ext.
  intros k. symmetry. apply pow_powerRZ.
Qed.

(** A phase of compounding: [c * x ** np.arange(1, p + 1)]. *)
Lemma scale_rpow_periods (c x : R) (p : Z) :
  Np.scale c (Np.rpow x (Np.arange 1 (p + 1)))
  = map (fun k => c * x ^ k) (seq 1 (Z.to_nat p)).
Proof.
  rewrite arange_periods, rpow_nat. unfold Np.scale. apply map_map.
Qed.

Lemma compound_last (c x : R) (n : nat) :
  map (fun k => c * x ^ k) (seq 1 (S n))
  = map (fun k => c * x ^ k) (seq 1 n) ++ [c * x ^ S n].
Proof. rewrite seq_S, map_app. reflexivity. Qed.

(** *** Present values *)

Lemma sum_div_pv (rate : R) (xs : list R) (k : nat) :
  Np.sum (Np.div xs (map (pow (1 + rate)) (seq k (length xs))))
  = pv_from k rate xs.
Proof.
  revert k. induction xs as [| x xs IH]; intros k; simpl; [reflexivity |].
  f_equal. apply IH.
Qed.

Lemma py_sum_sum (l : list R) : py_sum l = Np.sum l.
Proof.
  unfold py_sum, Np.sum.
  assert (H : forall a, fold_left Rplus l a = a + foldr Rplus 0 l).
  { induction l as [| x l IH]; intros a; simpl; [lra |]. rewrite IH. lra. }
  rewrite H. lra.
Qed.

Lemma discounted_sum (rate : R) (xs : list R) :
  Np.sum (Np.div xs (Np.rpow (1 + rate) (Np.arange 1 (len xs + 1))))
  = present_value rate xs.
Proof.
  rewrite arange_periods, rpow_nat. unfold len. rewrite Nat2Z.id.
  apply sum_div_pv.
Qed.

(** *** The dividend discount model *)

(** The value [div_discount_model] returns when both periods are at least
    one year: the present value of the two phases followed by the terminal
    value. *)
Lemma compound_getitem_last (c x : R) (n : nat) :
  (1 <= n)%nat ->
  let phase := map (fun k => c * x ^ k) (seq 1 n) in
  getitem phase (len phase - 1) = Ok (c * x ^ n).
Proof.
  intros H phase. subst phase. destruct n as [| m]; [lia |].
  rewrite compound_last. apply getitem_last.
Qed.

Lemma div_discount_model_value (D d g1 : R) (p1 : Z) (g2 : R) (p2 : Z) (gc : R) :
  (1 <= p1)%Z -> (1 <= p2)%Z ->
  let n1 := Z.to_nat p1 in
  let n2 := Z.to_nat p2 in
  let last1 := D * (1 + g1) ^ n1 in
  let last2 := last1 * (1 + g2) ^ n2 in
  div_discount_model D d g1 p1 g2 p2 gc
  = Ok (present_value d
          (map (fun k => D * (1 + g1) ^ k) (seq 1 n1)
           ++ map (fun k => last1 * (1 + g2) ^ k) (seq 1 n2)
           ++ [last2 * (1 + gc) / (d - gc)])).
Proof.
  intros H1 H2 n1 n2 last1 last2. unfold div_discount_model.
  rewrite scale_rpow_periods. fold n1.
  rewrite compound_getitem_last by (subst n1; lia). cbn [bind].
  rewrite scale_rpow_periods. fold n2. fold last1.
  rewrite compound_getitem_last by (subst n2; lia). cbn [bind].
  fold last2. f_equal.
  rewrite <- discounted_sum. f_equal. f_equal. f_equal.
  unfold len. rewrite !length_app. simpl length. f_equal. lia.
Qed.

Lemma div_discount_model_no_phase1 (D d g1 : R) (p1 : Z) (g2 : R) (p2 : Z) (gc : R) :
  (p1 <= 0)%Z -> div_discount_model D d g1 p1 g2 p2 gc = Raise IndexError.
Proof.
  intros H. unfold div_discount_model. rewrite scale_rpow_periods.
  replace (Z.to_nat p1) with 0%nat by lia. reflexivity.
Qed.

Lemma div_discount_model_no_phase2 (D d g1 : R) (p1 : Z) (g2 : R) (p2 : Z) (gc : R) :
  (1 <= p1)%Z -> (p2 <= 0)%Z ->
  div_discount_model D d g1 p1 g2 p2 gc = Raise IndexError.
Proof.
  intros H1 H. unfold div_discount_model. rewrite scale_rpow_periods.
  rewrite compound_getitem_last by lia. cbn [bind].
  rewrite scale_rpow_periods.
  replace (Z.to_nat p2) with 0%nat by lia. reflexivity.
Qed.

(** The two phases of a call with one common growth rate form a single
    compounding sequence. *)
Lemma phases_join (D x : R) (n1 n2 : nat) :
  map (fun k => D * x ^ k) (seq 1 n1)
  ++ map (fun k => D * x ^ n1 * x ^ k) (seq 1 n2)
  = map (fun k => D * x ^ k) (seq 1 (n1 + n2)).
Proof.
  rewrite seq_app, map_app. f_equal.
  rewrite (Nat.add_comm 1 n1), <- (fmap_add_seq n1 1 n2).
  change (fmap (B:=nat)) with (@map nat nat). rewrite map_map.
  apply map_ext. intros k. rewrite pow_add. ring.
Qed.

(** Present value of a compounding sequence closed by the perpetuity term
    one index after its last element. *)
Lemma pv_compound_terminal (D g d : R) (n a : nat) :
  1 + d <> 0 -> d <> g ->
  pv_from a d (map (fun k => D * (1 + g) ^ k) (seq a n)
               ++ [D * (1 + g) ^ (a + n) / (d - g)])
  = D * ((1 + g) ^ a / (1 + d) ^ a) * ((1 + d) / (d - g))
    - D * ((1 + g) ^ (a + n) / (1 + d) ^ (a + n)) * (d / (d - g)).
Proof.
  intros Hd Hg. revert a. induction n as [| n IH]; intros a.
  - rewrite Nat.add_0_r. simpl.
    assert (Hp : (1 + d) ^ a <> 0) by (apply pow_nonzero; assumption).
    field. repeat split; [lra | assumption].
  - simpl map. simpl app. simpl pv_from.
    replace (a + S n)%nat with (S a + n)%nat by lia.
    rewrite IH.
    assert (Hp : (1 + d) ^ a <> 0) by (apply pow_nonzero; assumption).
    assert (Hq : (1 + d) ^ (S a + n) <> 0) by (apply pow_nonzero; assumption).
    simpl pow in *.
    field. repeat split; try lra; try assumption.
    apply pow_nonzero; assumption.
Qed.

(** [div_discount_model] with one growth rate [g] in both phases and in the
    terminal value. *)
Lemma div_discount_model_common_growth (D g d : R) (p1 p2 : Z) :
  1 + d <> 0 -> d <> g -> (1 <= p1)%Z -> (1 <= p2)%Z ->
  div_discount_model D d g p1 g p2 g
  = Ok (D * (1 + g) / (d - g)
        * (1 - ((1 + g) / (1 + d)) ^ Z.to_nat (p1 + p2) * (d / (1 + d)))).
Proof.
  intros Hd Hg H1 H2.
  rewrite div_discount_model_value by assumption. cbv zeta. f_equal.
  unfold present_value. rewrite app_assoc, phases_join.
  replace (D * (1 + g) ^ Z.to_nat p1 * (1 + g) ^ Z.to_nat p2 * (1 + g) / (d - g))
    with (D * (1 + g) ^ (1 + (Z.to_nat p1 + Z.to_nat p2)) / (d - g)).
  2:{ rewrite !pow_add. simpl. field. lra. }
  rewrite pv_compound_terminal by assumption.
  replace (Z.to_nat (p1 + p2)) with (Z.to_nat p1 + Z.to_nat p2)%nat by lia.
  set (N := (Z.to_nat p1 + Z.to_nat p2)%nat).
  assert (Hp : (1 + d) ^ N <> 0) by (apply pow_nonzero; assumption).
  replace (((1 + g) / (1 + d)) ^ N) with ((1 + g) ^ N / (1 + d) ^ N).
  2:{ unfold Rdiv. rewrite Rpow_mult_distr, pow_inv. reflexivity. }
  simpl pow. field. repeat split; try lra; assumption.
Qed.

(** C8 (amended): with one growth rate [g > -1] in both phases and in the
    terminal value, a discount rate [d > g] and periods of at least one
    year, [div_discount_model] returns the Gordon growth value scaled by
    [1 - ((1+g)/(1+d))^(p1+p2) * d/(1+d)]: the terminal value is discounted
    one index after the last projected dividend.  The two values coincide
    exactly when [current_div] or the discount rate is zero. *)
Theorem div_discount_model_vs_gordon (D g d : R) (p1 p2 : Z) :
  -1 < g -> g < d -> (1 <= p1)%Z -> (1 <= p2)%Z ->
  exists G v,
    gordon_growth_model D g d = Ok G /\
    div_discount_model D d g p1 g p2 g = Ok v /\
    v = G * (1 - ((1 + g) / (1 + d)) ^ Z.to_nat (p1 + p2) * (d / (1 + d))) /\
    (v = G <-> D = 0 \/ d = 0).
Proof.
  intros Hg Hd H1 H2.
  exists (D * (1 + g) / (d - g)). eexists.
  split; [apply gordon_value; lra |].
  split; [apply div_discount_model_common_growth; (lra || assumption) |].
  split; [reflexivity |].
  set (q := ((1 + g) / (1 + d)) ^ Z.to_nat (p1 + p2)).
  assert (Hq : 0 < q).
  { apply pow_lt. apply Rdiv_lt_0_compat; lra. }
  assert (Hi : 0 < / (d - g)) by (apply Rinv_0_lt_compat; lra).
  assert (Hj : 0 < / (1 + d)) by (apply Rinv_0_lt_compat; lra).
  unfold Rdiv. split.
  - intros E.
    assert (E' : (D * d) * ((1 + g) * / (d - g) * q * / (1 + d)) = 0) by nra.
    apply Rmult_integral in E'. destruct E' as [E' | E'].
    + apply Rmult_integral in E'. exact E'.
    + exfalso.
      assert (0 < (1 + g) * / (d - g) * q * / (1 + d)); [| lra].
      repeat apply Rmult_lt_0_compat; lra.
  - intros [E | E]; subst; ring.
Qed.

Lemma div_discount_model_vs_gordon_witness :
  exists G v,
    gordon_growth_model 1 0 1 = Ok G /\
    div_discount_model 1 1 0 5 0 5 0 = Ok v /\
    v = G * (1 - ((1 + 0) / (1 + 1)) ^ Z.to_nat (5 + 5) * (1 / (1 + 1))) /\
    (v = G <-> 1 = 0 \/ 1 = 0).
Proof.
  apply (div_discount_model_vs_gordon 1 0 1 5 5); (lra || lia).
Defined.

(** C8 (as stated) fails: with growth 0 throughout, discount rate 1 and the
    default periods of 5 years, the dividend discount model returns
    [1 - 1/2048] while the Gordon growth value is 1. *)
Lemma div_discount_model_not_gordon :
  -1 < 0 /\ 0 < 1 /\
  div_discount_model 1 1 0 5 0 5 0 = Ok (2047 / 2048) /\
  gordon_growth_model 1 0 1 = Ok (1 * (1 + 0) / (1 - 0)) /\
  div_discount_model 1 1 0 5 0 5 0 <> gordon_growth_model 1 0 1.
Proof.
  assert (E : div_discount_model 1 1 0 5 0 5 0 = Ok (2047 / 2048)).
  { rewrite div_discount_model_common_growth by (lra || lia).
    f_equal. change (Z.to_nat (5 + 5)) with 10%nat. simpl pow. lra. }
  assert (G : gordon_growth_model 1 0 1 = Ok (1 * (1 + 0) / (1 - 0))).
  { apply gordon_value. lra. }
  repeat split; try lra; try assumption.
  rewrite E, G. intros H. inversion H. lra.
Qed.

(** C1 (amended): nothing guards the perpetuity denominator.  With
    [discount <= const_growth], [gordon_growth_model] raises only when the
    two rates are equal (division by zero); with [discount < const_growth]
    it returns the value computed from the negative denominator.
    [div_discount_model] with periods of at least one year returns
    normally, its terminal value being computed from that denominator. *)
Theorem perpetuity_denominator_unguarded
    (D d g1 : R) (p1 : Z) (g2 : R) (p2 : Z) (g : R) :
  d <= g -> (1 <= p1)%Z -> (1 <= p2)%Z ->
  (raises (gordon_growth_model D g d) <-> d = g) /\
  (d < g -> gordon_growth_model D g d = Ok (D * (1 + g) / (d - g))) /\
  returns (div_discount_model D d g1 p1 g2 p2 g) /\
  (d < g ->
   let last1 := D * (1 + g1) ^ Z.to_nat p1 in
   let last2 := last1 * (1 + g2) ^ Z.to_nat p2 in
   div_discount_model D d g1 p1 g2 p2 g
   = Ok (present_value d
           (map (fun k => D * (1 + g1) ^ k) (seq 1 (Z.to_nat p1))
            ++ map (fun k => last1 * (1 + g2) ^ k) (seq 1 (Z.to_nat p2))
            ++ [last2 * (1 + g) / (d - g)]))).
Proof.
  intros Hd H1 H2. repeat split.
  - intros [e He]. destruct (Req_dec_T d g) as [E | E]; [assumption |].
    rewrite gordon_value in He by assumption. discriminate.
  - intros ->. exists ZeroDivisionError. unfold gordon_growth_model.
    replace (g - g) with 0 by ring. apply float_div_zero.
  - intros Hlt. apply gordon_value. lra.
  - eexists. apply div_discount_model_value; assumption.
  - intros _. apply div_discount_model_value; assumption.
Qed.

Lemma perpetuity_denominator_unguarded_witness :
  (raises (gordon_growth_model 1 1 0) <-> 0 = 1) /\
  (0 < 1 -> gordon_growth_model 1 1 0 = Ok (1 * (1 + 1) / (0 - 1))) /\
  returns (div_discount_model 1 0 0 1 0 1 1) /\
  (0 < 1 ->
   let last1 := 1 * (1 + 0) ^ Z.to_nat 1 in
   let last2 := last1 * (1 + 0) ^ Z.to_nat 1 in
   div_discount_model 1 0 0 1 0 1 1
   = Ok (present_value 0
           (map (fun k => 1 * (1 + 0) ^ k) (seq 1 (Z.to_nat 1))
            ++ map (fun k => last1 * (1 + 0) ^ k) (seq 1 (Z.to_nat 1))
            ++ [last2 * (1 + 1) / (0 - 1)]))).
Proof.
  apply (perpetuity_denominator_unguarded 1 0 0 1 0 1 1); (lra || lia).
Defined.

(** C1 (as stated) fails: with discount rate 0 below the growth rate 1,
    [gordon_growth_model] returns -2 and [div_discount_model] returns 0;
    neither raises. *)
Lemma perpetuity_guard_missing :
  0 <= 1 /\
  gordon_growth_model 1 1 0 = Ok (-2) /\
  ~ raises (gordon_growth_model 1 1 0) /\
  div_discount_model 1 0 0 1 0 1 1 = Ok 0 /\
  ~ raises (div_discount_model 1 0 0 1 0 1 1).
Proof.
  assert (G : gordon_growth_model 1 1 0 = Ok (-2)).
  { rewrite gordon_value by lra. f_equal. lra. }
  assert (V : div_discount_model 1 0 0 1 0 1 1 = Ok 0).
  { rewrite div_discount_model_value by lia. f_equal.
    change (Z.to_nat 1) with 1%nat. unfold present_value. simpl. lra. }
  split; [lra |]. split; [exact G |]. split.
  - intros [e He]. rewrite G in He. discriminate.
  - split; [exact V |]. intros [e He]. rewrite V in He. discriminate.
Qed.

(** *** The Graham formula *)

Lemma safe_is_unbound :
  load_global module_globals "safe" = Raise (NameError "safe").
Proof. vm_compute. reflexivity. Qed.

Lemma ben_graham_formula_name_error (eps : list R) (proj_growth risk_free_rate : R)
    (safe_eps safe_growth adjust : bool) :
  ben_graham_formula eps proj_growth risk_free_rate safe_eps safe_growth adjust
  = Raise (NameError "safe").
Proof.
  unfold ben_graham_formula. rewrite safe_is_unbound. reflexivity.
Qed.

(** C5: every call of [ben_graham_formula], whatever its arguments, raises
    NameError for the name [safe], bound neither in the module nor among the
    builtins; no call returns a value. *)
Theorem ben_graham_formula_always_raises (eps : list R)
    (proj_growth risk_free_rate : R) (safe_eps safe_growth adjust : bool) :
  ben_graham_formula eps proj_growth risk_free_rate safe_eps safe_growth adjust
  = Raise (NameError "safe")
  /\ raises (ben_graham_formula eps proj_growth risk_free_rate
               safe_eps safe_growth adjust)
  /\ ~ returns (ben_graham_formula eps proj_growth risk_free_rate
                  safe_eps safe_growth adjust).
Proof.
  rewrite ben_graham_formula_name_error. split; [reflexivity |]. split.
  - exists (NameError "safe"). reflexivity.
  - intros [v Hv]. discriminate.
Qed.

(** C2: on the EPS history 1, 2, ..., 11 with 5% projected growth, the
    default risk-free rate and the default flags, the specification's value
    is [11 * (8 + 2 * 0.05 * 100 * 4.4) / (0.025 * 100) = 228.8] and its
    adjusted value, from the mean 6 of the history, is 124.8; the code
    returns neither: it raises NameError. *)
Theorem ben_graham_formula_diverges :
  let eps := [1; 2; 3; 4; 5; 6; 7; 8; 9; 10; 11] in
  (11 <= length eps)%nat /\ 0.025 <> 0 /\
  getitem eps 10 = Ok 11 /\
  graham_value 11 0.05 0.025 false false = 228.8 /\
  graham_value (Np.mean eps) 0.05 0.025 false false = 124.8 /\
  ben_graham_formula eps 0.05 0.025 false false true = Raise (NameError "safe").
Proof.
  cbv zeta. split; [simpl; lia |]. split; [lra |]. split.
  - change 10%Z with (Z.of_nat 10). apply getitem_nat. reflexivity.
  - split; [unfold graham_value; lra |]. split.
    + unfold graham_value, Np.mean, Np.sum. simpl. lra.
    + apply ben_graham_formula_name_error.
Qed.

(** *** The discounted cash flow simulation *)

Lemma setitem_nat (l : list R) (k : nat) (v : R) :
  (k < length l)%nat -> setitem l (Z.of_nat k) v = Ok (<[k:=v]> l).
Proof.
  intros H. unfold setitem, py_index, len.
  rewrite bool_decide_eq_true_2 by lia. rewrite Nat2Z.id. reflexivity.
Qed.

Lemma getitem_nth (l : list R) (k : nat) :
  (k < length l)%nat -> getitem l (Z.of_nat k) = Ok (nth k l 0).
Proof.
  intros H. apply getitem_nat.
  destruct (nth_lookup_or_length l k 0) as [E | E]; [exact E | lia].
Qed.

Lemma getitem_len_last (l : list R) :
  l <> [] -> getitem l (len l - 1) = Ok (List.last l 0).
Proof.
  intros H. destruct (exists_last H) as [l' [x ->]].
  rewrite getitem_last, List.last_last. reflexivity.
Qed.

Lemma advance_0 (st : Np.RandomState) : Np.advance st 0 = st.
Proof.
  destruct st as [z c]. unfold Np.advance. simpl. f_equal. lia.
Qed.

Lemma advance_advance (st : Np.RandomState) (a b : nat) :
  Np.advance (Np.advance st a) b = Np.advance st (a + b).
Proof. unfold Np.advance. simpl. f_equal. lia. Qed.

Lemma std_nonneg (a : list R) (ddof : Z) : 0 <= Np.std a ddof.
Proof. apply sqrt_pos. Qed.

Lemma random_normal_std (a : list R) (size : nat) (st : Np.RandomState) :
  Np.random_normal (Np.std a 1) size st
  = Ok (map (fun k => 0 + Np.std a 1 * Np.draws st (Np.cursor st + k))
          (seq 0 size),
        Np.advance st size).
Proof.
  unfold Np.random_normal.
  destruct (Rlt_dec (Np.std a 1) 0) as [H | H]; [| reflexivity].
  pose proof (std_nonneg a 1). lra.
Qed.

Lemma zip_with_map_seq {A B C : Type} (f : A -> B -> C)
    (g : nat -> A) (h : nat -> B) (a b n : nat) :
  zip_with f (map g (seq a n)) (map h (seq b n))
  = map (fun k => f (g (a + k)%nat) (h (b + k)%nat)) (seq 0 n).
Proof.
  revert a b. induction n as [| n IH]; intros a b; [reflexivity |].
  simpl. rewrite !Nat.add_0_r. f_equal.
  rewrite IH, <- (fmap_S_seq 0 n).
  change (fmap (B:=nat)) with (@map nat nat). rewrite map_map.
  apply map_ext. intros k. f_equal; f_equal; lia.
Qed.

(** One phase of a trial: ten years of compounding plus the scaled draws. *)
Lemma phase_with_noise (start rate sigma : R) (z : nat -> R) :
  Np.add (Np.scale start (Np.rpow (1 + rate) (Np.arange 1 11)))
    (map (fun k => 0 + sigma * z k) (seq 0 10))
  = noisy_compound start rate sigma z.
Proof.
  change 11%Z with (10 + 1)%Z. rewrite scale_rpow_periods.
  change (Z.to_nat 10) with 10%nat.
  unfold Np.add, noisy_compound. rewrite zip_with_map_seq.
  apply map_ext. intros k. simpl. ring.
Qed.

Lemma length_noisy_compound (start rate sigma : R) (z : nat -> R) :
  length (noisy_compound start rate sigma z) = 10%nat.
Proof. reflexivity. Qed.

Lemma length_projected (series : list R) (r1 r2 : R) (st : Np.RandomState) :
  length (projected series r1 r2 st) = 20%nat.
Proof. reflexivity. Qed.

Lemma lookup_noisy_compound (start rate sigma : R) (z : nat -> R) (k : nat) :
  (k < 10)%nat ->
  noisy_compound start rate sigma z !! k
  = Some (start * (1 + rate) ^ S k + sigma * z k).
Proof.
  intros H. unfold noisy_compound.
  change (@map nat R) with (@fmap list _ nat R).
  rewrite list_lookup_fmap, lookup_seq_lt by assumption. reflexivity.
Qed.

(** With at least ten observations the projection of a trial returns the
    20 values of [projected] and consumes 20 draws. *)
Lemma dcf_project_ok (fcf : list R) (r1 r2 : R) (st : Np.RandomState) :
  (10 <= length fcf)%nat ->
  dcf_project fcf r1 r2 st = Ok (projected fcf r1 r2 st, Np.advance st 20).
Proof.
  intros H. unfold dcf_project.
  change 9%Z with (Z.of_nat 9). rewrite getitem_nth by lia. cbn [bind].
  rewrite random_normal_std. cbn [bind]. rewrite phase_with_noise.
  rewrite getitem_nth by (rewrite length_noisy_compound; lia). cbn [bind].
  rewrite random_normal_std. cbn [bind]. rewrite phase_with_noise.
  rewrite advance_advance. unfold projected. cbv zeta. simpl Nat.add.
  do 3 f_equal. unfold noisy_compound. apply map_ext. intros k.
  simpl. do 3 f_equal. lia.
Qed.

Lemma dcf_project_short (fcf : list R) (r1 r2 : R) (st : Np.RandomState) :
  (length fcf < 10)%nat -> dcf_project fcf r1 r2 st = Raise IndexError.
Proof.
  intros H. unfold dcf_project.
  rewrite getitem_out_of_range by (unfold len; lia). reflexivity.
Qed.

(** One trial with room for its estimates at position [j]. *)
Lemma dcf_trial_ok (fcf : list R) (r1 r2 discount d shares : R) (j : nat)
    (v1 v2 : list R) (st : Np.RandomState) :
  (10 <= length fcf)%nat -> (j < length v1)%nat -> (j < length v2)%nat ->
  dcf_trial fcf r1 r2 discount d shares (Z.of_nat j) (v1, v2, st)
  = Ok (<[j := present_value discount (projected fcf r1 r2 st) / shares]> v1,
        <[j := present_value d (projected fcf r1 r2 st) / shares]> v2,
        Np.advance st 20).
Proof.
  intros H H1 H2. unfold dcf_trial.
  rewrite dcf_project_ok by assumption. cbn [bind].
  rewrite py_sum_sum.
  change 21%Z with (len (projected fcf r1 r2 st) + 1)%Z.
  rewrite !discounted_sum.
  rewrite setitem_nat by assumption. cbn [bind].
  rewrite setitem_nat by assumption. reflexivity.
Qed.

Lemma dcf_trial_short (fcf : list R) (r1 r2 discount d shares : R) (i : Z)
    (s : list R * list R * Np.RandomState) :
  (length fcf < 10)%nat ->
  dcf_trial fcf r1 r2 discount d shares i s = Raise IndexError.
Proof.
  intros H. destruct s as [[v1 v2] st]. unfold dcf_trial.
  rewrite dcf_project_short by assumption. reflexivity.
Qed.

(** The simulation loop over the counters [a, a+1, ..., a+m-1]: it fills
    these positions of both arrays, trial [j] starting [20 * (j - a)] draws
    after the first, and leaves the other positions as they were. *)
Lemma dcf_loop (fcf : list R) (r1 r2 discount d shares : R) (m : nat) :
  (10 <= length fcf)%nat ->
  forall (a : nat) (v1 v2 : list R) (st : Np.RandomState),
  (a + m <= length v1)%nat -> (a + m <= length v2)%nat ->
  exists v1' v2',
    for_in (map Z.of_nat (seq a m)) (dcf_trial fcf r1 r2 discount d shares)
      (v1, v2, st)
    = Ok (v1', v2', Np.advance st (20 * m))
    /\ length v1' = length v1 /\ length v2' = length v2
    /\ (forall j, (a <= j < a + m)%nat ->
          let P := projected fcf r1 r2 (Np.advance st (20 * (j - a))) in
          v1' !! j = Some (present_value discount P / shares)
          /\ v2' !! j = Some (present_value d P / shares))
    /\ (forall j, (j < a)%nat -> v1' !! j = v1 !! j /\ v2' !! j = v2 !! j).
Proof.
  intros Hlen. induction m as [| m IH]; intros a v1 v2 st H1 H2.
  - exists v1, v2. simpl. rewrite advance_0.
    repeat split; intros; try reflexivity; lia.
  - cbn [seq map for_in].
    rewrite dcf_trial_ok by (assumption || lia). cbn [bind].
    set (e1 := present_value discount (projected fcf r1 r2 st) / shares).
    set (e2 := present_value d (projected fcf r1 r2 st) / shares).
    destruct (IH (S a) (<[a:=e1]> v1) (<[a:=e2]> v2) (Np.advance st 20))
      as (w1 & w2 & Hrun & L1 & L2 & Hin & Hout).
    { rewrite length_insert. lia. }
    { rewrite length_insert. lia. }
    exists w1, w2. rewrite Hrun, advance_advance.
    rewrite length_insert in L1, L2.
    split; [do 3 f_equal; lia |].
    split; [assumption |]. split; [assumption |]. split.
    + intros j Hj. cbv zeta. destruct (decide (j = a)) as [-> | Hne].
      * destruct (Hout a) as [E1 E2]; [lia |].
        rewrite E1, E2, !list_lookup_insert_eq by lia.
        rewrite Nat.sub_diag, Nat.mul_0_r, advance_0. split; reflexivity.
      * destruct (Hin j) as [E1 E2]; [lia |].
        rewrite advance_advance in E1, E2.
        replace (20 * (j - a))%nat with (20 + 20 * (j - S a))%nat by lia.
        split; assumption.
    + intros j Hj. destruct (Hout j) as [E1 E2]; [lia |].
      rewrite E1, E2, !list_lookup_insert_ne by lia. split; reflexivity.
Qed.

Lemma xrange_0_100 : xrange 0 100 = map Z.of_nat (seq 0 100).
Proof. apply (arange_from_nat 0 100). Qed.

Lemma preprocessed_length (fcf : list R) :
  length (preprocessed fcf) = length fcf.
Proof.
  destruct fcf as [| x t]; [reflexivity |]. simpl.
  destruct (Rlt_dec x 0); reflexivity.
Qed.

Lemma preprocessed_tail (fcf : list R) (k : nat) :
  preprocessed fcf !! S k = fcf !! S k.
Proof.
  destruct fcf as [| x t]; [reflexivity |]. simpl.
  destruct (Rlt_dec x 0); reflexivity.
Qed.

Lemma capm_rate_ok (beta : R) :
  float_div (2.5 + beta * (9.11 - 2.5)) 100 = Ok (capm_rate beta).
Proof. apply float_div_ok. lra. Qed.

Lemma getitem_0 (l : list R) :
  l <> [] -> getitem l 0 = Ok (hd 0 l).
Proof.
  intros H. destruct l as [| x l]; [contradiction |].
  apply (getitem_nat (x :: l) 0 x). reflexivity.
Qed.

Lemma preprocess_step (fcf : list R) :
  fcf <> [] ->
  (if Rlt_dec (hd 0 fcf) 0 then setitem fcf 0 (Np.mean fcf) else Ok fcf)
  = Ok (preprocessed fcf).
Proof.
  intros H. destruct fcf as [| x t]; [contradiction |]. simpl hd.
  unfold preprocessed. destruct (Rlt_dec x 0); [| reflexivity].
  apply (setitem_nat (x :: t) 0). simpl. lia.
Qed.

Lemma preprocessed_last (fcf : list R) :
  (2 <= length fcf)%nat ->
  getitem (preprocessed fcf) (len fcf - 1) = Ok (List.last fcf 0).
Proof.
  intros H. replace (len fcf) with (len (preprocessed fcf))
    by (unfold len; rewrite preprocessed_length; reflexivity).
  rewrite getitem_len_last.
  - destruct fcf as [| x0 [| x1 t]]; simpl in H; try lia.
    unfold preprocessed. destruct (Rlt_dec x0 0); reflexivity.
  - intros E. apply (f_equal length) in E.
    rewrite preprocessed_length in E. simpl in E. lia.
Qed.

(** With at least two observations, the part of [discount_cash_flow] before
    the loop returns: what is left is the loop, run on the preprocessed
    history with the rate [capm_rate beta], and the growth rate of the
    specification. *)
Lemma discount_cash_flow_loop (fcf : list R) (r1 r2 discount shares beta : R)
    (st : Np.RandomState) :
  (2 <= length fcf)%nat ->
  discount_cash_flow fcf r1 r2 discount shares beta st
  = let* '(v1, v2, st') :=
      for_in (xrange 0 100)
        (dcf_trial (preprocessed fcf) r1 r2 discount (capm_rate beta) shares)
        (Np.zeros 100, Np.zeros 100, st) in
    Ok ((cagr fcf, v1, v2), st').
Proof.
  intros H.
  assert (Hne : fcf <> []) by (intros ->; simpl in H; lia).
  assert (Hne' : preprocessed fcf <> []).
  { intros E. apply (f_equal length) in E.
    rewrite preprocessed_length in E. simpl in E. lia. }
  assert (Hn : IZR (len fcf - 1) <> 0) by (apply not_0_IZR; unfold len; lia).
  unfold discount_cash_flow.
  rewrite getitem_0 by assumption. cbn [bind].
  rewrite preprocess_step by assumption. cbn [bind].
  rewrite preprocessed_last by assumption. cbn [bind].
  rewrite getitem_0 by assumption. cbn [bind].
  rewrite float_div_ok by assumption. cbn [bind].
  rewrite capm_rate_ok. cbn [bind].
  unfold cagr, len. rewrite minus_IZR, <- INR_IZR_INZ. reflexivity.
Qed.

(** With at least ten observations [discount_cash_flow] returns: the growth
    rate of the specification, 100 estimates under each rate, trial [i]
    using the draws [20 * i .. 20 * i + 19] after the generator's state. *)
Lemma discount_cash_flow_ok (fcf : list R) (r1 r2 discount shares beta : R)
    (st : Np.RandomState) :
  (10 <= length fcf)%nat ->
  exists v1 v2,
    discount_cash_flow fcf r1 r2 discount shares beta st
    = Ok ((cagr fcf, v1, v2), Np.advance st 2000)
    /\ length v1 = 100%nat /\ length v2 = 100%nat
    /\ forall i, (i < 100)%nat ->
         let P := projected (preprocessed fcf) r1 r2 (Np.advance st (20 * i)) in
         v1 !! i = Some (present_value discount P / shares)
         /\ v2 !! i = Some (present_value (capm_rate beta) P / shares).
Proof.
  intros H. rewrite discount_cash_flow_loop by lia. rewrite xrange_0_100.
  destruct (dcf_loop (preprocessed fcf) r1 r2 discount (capm_rate beta) shares
              100 ltac:(rewrite preprocessed_length; exact H)
              0%nat (Np.zeros 100) (Np.zeros 100) st)
    as (v1 & v2 & Hrun & L1 & L2 & Hin & _).
  { unfold Np.zeros. rewrite length_replicate. lia. }
  { unfold Np.zeros. rewrite length_replicate. lia. }
  exists v1, v2. rewrite Hrun. cbn [bind].
  unfold Np.zeros in L1, L2. rewrite length_replicate in L1, L2.
  split; [reflexivity |]. split; [assumption |]. split; [assumption |].
  intros i Hi. specialize (Hin i ltac:(lia)).
  rewrite Nat.sub_0_r in Hin. exact Hin.
Qed.

Lemma discount_cash_flow_empty (r1 r2 discount shares beta : R)
    (st : Np.RandomState) :
  discount_cash_flow [] r1 r2 discount shares beta st = Raise IndexError.
Proof. reflexivity. Qed.

Lemma discount_cash_flow_single (x r1 r2 discount shares beta : R)
    (st : Np.RandomState) :
  discount_cash_flow [x] r1 r2 discount shares beta st
  = Raise ZeroDivisionError.
Proof.
  assert (Hne : preprocessed [x] <> []).
  { unfold preprocessed. destruct (Rlt_dec x 0); discriminate. }
  unfold discount_cash_flow.
  rewrite getitem_0 by discriminate. cbn [bind].
  rewrite preprocess_step by discriminate. cbn [bind].
  change (len [x] - 1)%Z with 0%Z.
  rewrite getitem_0 by assumption. cbn [bind].
  rewrite float_div_zero. reflexivity.
Qed.

Lemma discount_cash_flow_short (fcf : list R) (r1 r2 discount shares beta : R)
    (st : Np.RandomState) :
  (2 <= length fcf < 10)%nat ->
  discount_cash_flow fcf r1 r2 discount shares beta st = Raise IndexError.
Proof.
  intros H. rewrite discount_cash_flow_loop by lia.
  rewrite xrange_cons by lia. cbn [for_in].
  rewrite dcf_trial_short by (rewrite preprocessed_length; lia).
  reflexivity.
Qed.

Lemma discount_cash_flow_raises (fcf : list R) (r1 r2 discount shares beta : R)
    (st : Np.RandomState) :
  (length fcf < 10)%nat ->
  raises (discount_cash_flow fcf r1 r2 discount shares beta st).
Proof.
  intros H. destruct fcf as [| x [| y t]].
  - exists IndexError. apply discount_cash_flow_empty.
  - exists ZeroDivisionError. apply discount_cash_flow_single.
  - exists IndexError. apply discount_cash_flow_short. simpl in *. lia.
Qed.

Lemma std_sample_std (xs : list R) : Np.std xs 1 = sample_std xs.
Proof.
  unfold Np.std, sample_std, Np.mean, len. cbv zeta.
  rewrite minus_IZR, <- INR_IZR_INZ. reflexivity.
Qed.

(** C4 (amended): [discount_cash_flow] raises exactly when the history has
    fewer than 10 entries (the projection reads index 9), and returns
    normally for every history of at least 10 entries, whatever the value
    of [shares]. *)
Theorem discount_cash_flow_raises_iff (fcf : list R)
    (r1 r2 discount shares beta : R) (st : Np.RandomState) :
  (raises (discount_cash_flow fcf r1 r2 discount shares beta st)
   <-> (length fcf < 10)%nat)
  /\ (returns (discount_cash_flow fcf r1 r2 discount shares beta st)
      <-> (10 <= length fcf)%nat).
Proof.
  destruct (le_lt_dec 10 (length fcf)) as [Hge | Hlt].
  - destruct (discount_cash_flow_ok fcf r1 r2 discount shares beta st Hge)
      as (v1 & v2 & E & _).
    split; split.
    + intros [e He]. rewrite E in He. discriminate.
    + lia.
    + intros _. assumption.
    + intros _. eexists. exact E.
  - destruct (discount_cash_flow_raises fcf r1 r2 discount shares beta st Hlt)
      as [e He].
    split; split.
    + intros _. assumption.
    + intros _. exists e. exact He.
    + intros [a Ha]. rewrite He in Ha. discriminate.
    + lia.
Qed.

(** C4 (as stated) fails: a history of 10 entries, fewer than 11, with a
    negative share count is accepted; the call returns normally. *)
Lemma discount_cash_flow_accepts_short_history :
  let history := [1; 1; 1; 1; 1; 1; 1; 1; 1; 1] in
  let st := Np.mkRandomState (fun _ => 0) 0 in
  (length history < 11)%nat /\ -1 <= 0 /\
  returns (discount_cash_flow history 0.09 0.05 0.1 (-1) 1 st) /\
  ~ raises (discount_cash_flow history 0.09 0.05 0.1 (-1) 1 st).
Proof.
  cbv zeta. split; [simpl; lia |]. split; [lra |].
  match goal with |- returns ?c /\ _ =>
    destruct (discount_cash_flow_ok [1; 1; 1; 1; 1; 1; 1; 1; 1; 1]
                0.09 0.05 0.1 (-1) 1 (Np.mkRandomState (fun _ => 0) 0))
      as (v1 & v2 & E & _); [simpl; lia |]
  end.
  rewrite E. split; [eexists; reflexivity |]. intros [e He]. discriminate.
Qed.

(** C9: two calls with the same history of at least 10 observations both
    return, and with the same growth rate, whatever the projected rates,
    the discount rate, the share count, beta and the random draws. *)
Theorem cagr_depends_on_history_only (fcf : list R)
    (r1 r2 discount shares beta : R) (st : Np.RandomState)
    (r1' r2' discount' shares' beta' : R) (st' : Np.RandomState) :
  (10 <= length fcf)%nat ->
  exists c v1 v2 s w1 w2 s',
    discount_cash_flow fcf r1 r2 discount shares beta st = Ok ((c, v1, v2), s)
    /\ discount_cash_flow fcf r1' r2' discount' shares' beta' st'
       = Ok ((c, w1, w2), s').
Proof.
  intros H.
  destruct (discount_cash_flow_ok fcf r1 r2 discount shares beta st H)
    as (v1 & v2 & E & _).
  destruct (discount_cash_flow_ok fcf r1' r2' discount' shares' beta' st' H)
    as (w1 & w2 & E' & _).
  exists (cagr fcf), v1, v2, (Np.advance st 2000), w1, w2, (Np.advance st' 2000).
  split; assumption.
Qed.

Lemma cagr_depends_on_history_only_witness :
  let fcf := [1; 2; 3; 4; 5; 6; 7; 8; 9; 10; 11] in
  exists c v1 v2 s w1 w2 s',
    discount_cash_flow fcf 0.09 0.05 0.1 10 1 (Np.mkRandomState (fun _ => 0) 0)
    = Ok ((c, v1, v2), s)
    /\ discount_cash_flow fcf 0.2 0 0.07 250 (-1) (Np.mkRandomState (fun k => INR k) 7)
       = Ok ((c, w1, w2), s').
Proof.
  cbv zeta.
  apply (cagr_depends_on_history_only [1; 2; 3; 4; 5; 6; 7; 8; 9; 10; 11]).
  simpl. lia.
Defined.

(** C7: for every history of at least 10 observations the call runs 100
    trials, trial [i] on the 20 draws that follow the first [20 * i], and
    returns two arrays of exactly 100 estimates.  In each trial the 20
    projected values are discounted at period indices 1..20 under the given
    discount rate and under [(2.5 + beta * (9.11 - 2.5)) / 100], and the
    estimate stored at position [i] of each array is the sum of the
    discounted series divided by [shares]. *)
Theorem discount_cash_flow_estimates (fcf : list R)
    (r1 r2 discount shares beta : R) (st : Np.RandomState) :
  (10 <= length fcf)%nat ->
  exists c v1 v2,
    discount_cash_flow fcf r1 r2 discount shares beta st
    = Ok ((c, v1, v2), Np.advance st (100 * 20))
    /\ length v1 = 100%nat /\ length v2 = 100%nat
    /\ forall i, (i < 100)%nat ->
         exists projtotal,
           dcf_project (preprocessed fcf) r1 r2 (Np.advance st (20 * i))
           = Ok (projtotal, Np.advance st (20 * i + 20))
           /\ length projtotal = 20%nat
           /\ v1 !! i = Some (pv_from 1 discount projtotal / shares)
           /\ v2 !! i
              = Some (pv_from 1 ((2.5 + beta * (9.11 - 2.5)) / 100) projtotal
                      / shares).
Proof.
  intros H.
  destruct (discount_cash_flow_ok fcf r1 r2 discount shares beta st H)
    as (v1 & v2 & E & L1 & L2 & Hin).
  exists (cagr fcf), v1, v2. split; [exact E |].
  split; [assumption |]. split; [assumption |].
  intros i Hi.
  exists (projected (preprocessed fcf) r1 r2 (Np.advance st (20 * i))).
  split.
  - rewrite dcf_project_ok by (rewrite preprocessed_length; assumption).
    rewrite advance_advance. reflexivity.
  - split; [apply length_projected |]. exact (Hin i Hi).
Qed.

Lemma discount_cash_flow_estimates_witness :
  let fcf := [1; 2; 3; 4; 5; 6; 7; 8; 9; 10; 11] in
  let st := Np.mkRandomState (fun k => INR k) 0 in
  exists c v1 v2,
    discount_cash_flow fcf 0.09 0.05 0.1 10 1 st
    = Ok ((c, v1, v2), Np.advance st (100 * 20))
    /\ length v1 = 100%nat /\ length v2 = 100%nat
    /\ forall i, (i < 100)%nat ->
         exists projtotal,
           dcf_project (preprocessed fcf) 0.09 0.05 (Np.advance st (20 * i))
           = Ok (projtotal, Np.advance st (20 * i + 20))
           /\ length projtotal = 20%nat
           /\ v1 !! i = Some (pv_from 1 0.1 projtotal / 10)
           /\ v2 !! i
              = Some (pv_from 1 ((2.5 + 1 * (9.11 - 2.5)) / 100) projtotal
                      / 10).
Proof.
  cbv zeta.
  apply (discount_cash_flow_estimates [1; 2; 3; 4; 5; 6; 7; 8; 9; 10; 11]).
  simpl. lia.
Defined.

(** C3 (amended): in every trial, whatever the state [st] of the generator
    when it starts, the first 10 projected values compound the observation
    at index 9 of the history (its last element when the history has
    exactly 10 entries) at rate [proj_rate1] for years 1..10; each is
    perturbed by a fresh draw of the generator scaled by the
    Bessel-corrected sample standard deviation of the series as it stands
    after preprocessing (the input history when its earliest observation is
    not negative). *)
Theorem dcf_project_first_phase (fcf : list R) (r1 r2 : R)
    (st : Np.RandomState) :
  (10 <= length fcf)%nat ->
  exists fcf9 projtotal,
    fcf !! 9%nat = Some fcf9
    /\ (length fcf = 10%nat -> List.last fcf 0 = fcf9)
    /\ (0 <= hd 0 fcf -> preprocessed fcf = fcf)
    /\ dcf_project (preprocessed fcf) r1 r2 st
       = Ok (projtotal, Np.advance st 20)
    /\ forall k, (k < 10)%nat ->
         projtotal !! k
         = Some (fcf9 * (1 + r1) ^ S k
                 + sample_std (preprocessed fcf)
                   * Np.draws st (Np.cursor st + k)).
Proof.
  intros H.
  destruct (lookup_lt_is_Some_2 fcf 9 ltac:(lia)) as [fcf9 E9].
  exists fcf9, (projected (preprocessed fcf) r1 r2 st).
  split; [exact E9 |]. split; [| split; [| split]].
  - intros L.
    assert (Hl : List.last fcf 0 = nth 9 fcf 0).
    { do 11 (destruct fcf as [| ? fcf]; simpl in L; try lia). reflexivity. }
    rewrite Hl. apply nth_lookup_Some. exact E9.
  - intros H0. destruct fcf as [| x t]; [reflexivity |].
    simpl in H0. unfold preprocessed.
    destruct (Rlt_dec x 0); [lra | reflexivity].
  - apply dcf_project_ok. rewrite preprocessed_length. assumption.
  - intros k Hk. unfold projected. cbv zeta.
    rewrite lookup_app_l by (rewrite length_noisy_compound; assumption).
    rewrite lookup_noisy_compound by assumption.
    rewrite std_sample_std.
    rewrite (nth_lookup_Some (preprocessed fcf) 9 0 fcf9)
      by (rewrite preprocessed_tail; exact E9).
    reflexivity.
Qed.

Lemma dcf_project_first_phase_witness :
  let fcf := [1; 2; 3; 4; 5; 6; 7; 8; 9; 10; 11] in
  let st := Np.mkRandomState (fun k => INR k) 40 in
  exists fcf9 projtotal,
    fcf !! 9%nat = Some fcf9
    /\ (length fcf = 10%nat -> List.last fcf 0 = fcf9)
    /\ (0 <= hd 0 fcf -> preprocessed fcf = fcf)
    /\ dcf_project (preprocessed fcf) 0.09 0.05 st
       = Ok (projtotal, Np.advance st 20)
    /\ forall k, (k < 10)%nat ->
         projtotal !! k
         = Some (fcf9 * (1 + 0.09) ^ S k
                 + sample_std (preprocessed fcf)
                   * Np.draws st (Np.cursor st + k)).
Proof.
  cbv zeta.
  apply (dcf_project_first_phase [1; 2; 3; 4; 5; 6; 7; 8; 9; 10; 11]).
  simpl. lia.
Defined.

(** C3 (as stated) fails: on a history of 11 observations whose last two
    are 1 and 2, with growth rate 0 and all draws 0, the first projected
    value is 1, compounded from the observation at index 9, and not the 2
    that compounding the last observation gives. *)
Lemma projection_not_from_last_observation :
  let history := [1; 1; 1; 1; 1; 1; 1; 1; 1; 1; 2] in
  let st := Np.mkRandomState (fun _ => 0) 0 in
  exists projtotal st',
    dcf_project (preprocessed history) 0 0 st = Ok (projtotal, st')
    /\ projtotal !! 0%nat = Some 1
    /\ List.last history 0 * (1 + 0) ^ 1
       + sample_std history * Np.draws st (Np.cursor st + 0) = 2
    /\ projtotal !! 0%nat
       <> Some (List.last history 0 * (1 + 0) ^ 1
                + sample_std history * Np.draws st (Np.cursor st + 0)).
Proof.
  cbv zeta.
  assert (Hp : preprocessed [1; 1; 1; 1; 1; 1; 1; 1; 1; 1; 2]
               = [1; 1; 1; 1; 1; 1; 1; 1; 1; 1; 2]).
  { unfold preprocessed. destruct (Rlt_dec 1 0); [lra | reflexivity]. }
  rewrite Hp. eexists. eexists.
  split; [apply dcf_project_ok; simpl; lia |].
  assert (E : projected [1; 1; 1; 1; 1; 1; 1; 1; 1; 1; 2] 0 0
                (Np.mkRandomState (fun _ => 0) 0) !! 0%nat = Some 1).
  { unfold projected. cbv zeta.
    rewrite lookup_app_l by (rewrite length_noisy_compound; lia).
    rewrite lookup_noisy_compound by lia. f_equal. simpl. ring. }
  split; [exact E |].
  assert (V : List.last [1; 1; 1; 1; 1; 1; 1; 1; 1; 1; 2] 0 * (1 + 0) ^ 1
              + sample_std [1; 1; 1; 1; 1; 1; 1; 1; 1; 1; 2]
                * Np.draws (Np.mkRandomState (fun _ => 0) 0)
                    (Np.cursor (Np.mkRandomState (fun _ => 0) 0) + 0) = 2).
  { simpl. ring. }
  split; [exact V |].
  rewrite E, V. intros Heq. inversion Heq. lra.
Qed.

(** *** Worked values *)

Example gordon_growth_model_2060 :
  gordon_growth_model 100 0.03 0.08 = Ok 2060.
Proof. rewrite gordon_value by lra. f_equal. lra. Qed.

Example gordon_growth_model_equal_rates :
  gordon_growth_model 100 0.05 0.05 = Raise ZeroDivisionError.
Proof.
  unfold gordon_growth_model. replace (0.05 - 0.05) with 0 by lra.
  apply float_div_zero.
Qed.

Example div_discount_model_one_year_phases :
  div_discount_model 1 1 0 1 0 1 0 = Ok (7 / 8).
Proof.
  rewrite div_discount_model_value by lia. f_equal.
  change (Z.to_nat 1) with 1%nat. unfold present_value. simpl. lra.
Qed.

Example div_discount_model_collapsed_phase :
  div_discount_model 1 1 0 5 0 0 0 = Raise IndexError.
Proof. apply div_discount_model_no_phase2; lia. Qed.

Example capm_rate_beta_1 : capm_rate 1 = 0.0911.
Proof. unfold capm_rate. lra. Qed.

Example float_power_tenth_root : Np.float_power 1024 (1 / 10) = 2.
Proof.
  unfold Np.float_power. destruct (Rlt_dec 0 1024) as [_ | H]; [| lra].
  replace 1024 with (Rpower 2 (INR 10)).
  - rewrite Rpower_mult. replace (INR 10 * (1 / 10)) with 1 by (simpl; lra).
    apply Rpower_1. lra.
  - rewrite Rpower_pow by lra. simpl. lra.
Qed.

(** A history that grows from 1 to 1024 over ten years has a compound
    annual growth rate of 100%. *)
Example cagr_doubling :
  cagr [1; 2; 4; 8; 16; 32; 64; 128; 256; 512; 1024] = 1.
Proof.
  unfold cagr, preprocessed. destruct (Rlt_dec 1 0) as [H | _]; [lra |].
  cbv zeta. simpl hd. simpl List.last.
  replace (1024 / 1) with 1024 by lra.
  replace (1 / (INR (length [1; 2; 4; 8; 16; 32; 64; 128; 256; 512; 1024]) - 1))
    with (1 / 10) by (simpl; lra).
  rewrite float_power_tenth_root. lra.
Qed.

(** ** Further properties of the valuation functions *)

(** *** The Gordon growth model *)

(** X1: [gordon_growth_model] raises exactly when the two rates are equal, and
    the exception is ZeroDivisionError; for any other pair of rates it
    returns. *)
Theorem gordon_growth_model_raises_iff (D g d : R) :
  (gordon_growth_model D g d = Raise ZeroDivisionError <-> d = g)
  /\ (raises (gordon_growth_model D g d) <-> d = g)
  /\ (returns (gordon_growth_model D g d) <-> d <> g).
Proof.
  destruct (Req_dec_T d g) as [E | E].
  - subst d.
    assert (H : gordon_growth_model D g g = Raise ZeroDivisionError).
    { unfold gordon_growth_model. replace (g - g) with 0 by ring.
      apply float_div_zero. }
    rewrite H. repeat split; try reflexivity; try tauto.
    + intros _. eexists. reflexivity.
    + intros [v Hv]. discriminate.
  - rewrite (gordon_value D g d E). repeat split; try tauto; try discriminate.
    + intros [e He]. discriminate.
    + intros _. eexists. reflexivity.
Qed.

(** X2: For a positive dividend and a growth rate above -1, the value returned
    is positive exactly when the discount rate exceeds the growth rate, and
    negative exactly when it is below it. *)
Theorem gordon_growth_model_sign (D g d : R) :
  0 < D -> -1 < g -> d <> g ->
  exists v, gordon_growth_model D g d = Ok v
    /\ (0 < v <-> g < d) /\ (v < 0 <-> d < g).
Proof.
  intros HD Hg Hne. exists (D * (1 + g) / (d - g)).
  split; [apply gordon_value; assumption |].
  assert (Hnum : 0 < D * (1 + g)) by (apply Rmult_lt_0_compat; lra).
  destruct (Rlt_dec g d) as [Hlt | Hge].
  - assert (0 < D * (1 + g) / (d - g)) by (apply Rdiv_lt_0_compat; lra).
    split; split; intros; lra.
  - assert (Hd : d < g) by lra.
    assert (Hi : 0 < / (g - d)) by (apply Rinv_0_lt_compat; lra).
    assert (Hneg : D * (1 + g) / (d - g) < 0).
    { replace (D * (1 + g) / (d - g)) with (- (D * (1 + g) * / (g - d)))
        by (field; lra).
      assert (0 < D * (1 + g) * / (g - d)) by (apply Rmult_lt_0_compat; lra).
      lra. }
    split; split; intros; lra.
Qed.

Lemma gordon_growth_model_sign_witness :
  exists v, gordon_growth_model 2 0.1 0.04 = Ok v
    /\ (0 < v <-> 0.1 < 0.04) /\ (v < 0 <-> 0.04 < 0.1).
Proof.
  apply (gordon_growth_model_sign 2 0.1 0.04); lra.
Defined.

(** X3: The returned value satisfies the one-year recursion of a perpetuity: it
    is next year's dividend plus the value of the stream that starts from
    next year's dividend, both discounted by one year. *)
Theorem gordon_growth_model_recursion (D g d : R) :
  d <> g -> 1 + d <> 0 ->
  exists v v',
    gordon_growth_model D g d = Ok v
    /\ gordon_growth_model (D * (1 + g)) g d = Ok v'
    /\ v = (D * (1 + g) + v') / (1 + d).
Proof.
  intros Hne Hd. do 2 eexists.
  split; [apply gordon_value; assumption |].
  split; [apply gordon_value; assumption |].
  field. split; lra.
Qed.

Lemma gordon_growth_model_recursion_witness :
  exists v v',
    gordon_growth_model 100 0.03 0.08 = Ok v
    /\ gordon_growth_model (100 * (1 + 0.03)) 0.03 0.08 = Ok v'
    /\ v = (100 * (1 + 0.03) + v') / (1 + 0.08).
Proof.
  apply (gordon_growth_model_recursion 100 0.03 0.08); lra.
Defined.

(** X4: Scaling the dividend scales the value: a call on [c * current_div]
    returns [c] times what the call on [current_div] returns, and raises
    when that call raises. *)
Theorem gordon_growth_model_scales (c D g d : R) :
  gordon_growth_model (c * D) g d
  = match gordon_growth_model D g d with
    | Ok v => Ok (c * v)
    | Raise e => Raise e
    end.
Proof.
  unfold gordon_growth_model, float_div.
  destruct (Req_dec_T (d - g) 0) as [E | E]; [reflexivity |].
  f_equal. field. assumption.
Qed.

(** *** The dividend discount model *)

Lemma pv_from_app (rate : R) (xs ys : list R) (k : nat) :
  pv_from k rate (xs ++ ys)
  = pv_from k rate xs + pv_from (k + length xs) rate ys.
Proof.
  revert k. induction xs as [| x xs IH]; intros k; simpl.
  - rewrite Nat.add_0_r. ring.
  - rewrite IH. replace (S k + length xs)%nat with (k + S (length xs))%nat by lia.
    ring.
Qed.

Lemma pv_from_scale (rate c : R) (xs : list R) (k : nat) :
  pv_from k rate (map (Rmult c) xs) = c * pv_from k rate xs.
Proof.
  revert k. induction xs as [| x xs IH]; intros k; simpl.
  - ring.
  - rewrite IH. unfold Rdiv. ring.
Qed.

Lemma pv_from_nonneg (rate : R) (xs : list R) (k : nat) :
  0 < 1 + rate -> Forall (fun x => 0 < x) xs -> 0 <= pv_from k rate xs.
Proof.
  intros Hr Hxs. revert k. induction Hxs as [| x xs Hx _ IH]; intros k; simpl.
  - lra.
  - assert (0 < x / (1 + rate) ^ k).
    { apply Rdiv_lt_0_compat; [assumption | apply pow_lt; assumption]. }
    specialize (IH (S k)). lra.
Qed.

Lemma pv_from_pos (rate : R) (xs : list R) (k : nat) :
  0 < 1 + rate -> Forall (fun x => 0 < x) xs -> xs <> [] ->
  0 < pv_from k rate xs.
Proof.
  intros Hr Hxs Hne. destruct Hxs as [| x xs Hx Hxs]; [contradiction |].
  simpl.
  assert (0 < x / (1 + rate) ^ k).
  { apply Rdiv_lt_0_compat; [assumption | apply pow_lt; assumption]. }
  pose proof (pv_from_nonneg rate xs (S k) Hr Hxs). lra.
Qed.

Lemma div_discount_model_periods (D d g1 : R) (p1 : Z) (g2 : R) (p2 : Z) (gc : R) :
  (p1 <= 0 \/ p2 <= 0)%Z ->
  div_discount_model D d g1 p1 g2 p2 gc = Raise IndexError.
Proof.
  intros H. destruct (Z_lt_le_dec 0 p1) as [H1 | H1].
  - apply div_discount_model_no_phase2; lia.
  - apply div_discount_model_no_phase1; lia.
Qed.

(** X5: [div_discount_model] raises exactly when one of the two periods is not
    positive, the last element of an empty projection being read, and the
    exception is IndexError; it returns for all other arguments, whatever
    the rates. *)
Theorem div_discount_model_raises_iff
    (D d g1 : R) (p1 : Z) (g2 : R) (p2 : Z) (gc : R) :
  (div_discount_model D d g1 p1 g2 p2 gc = Raise IndexError
   <-> (p1 <= 0 \/ p2 <= 0)%Z)
  /\ (raises (div_discount_model D d g1 p1 g2 p2 gc)
      <-> (p1 <= 0 \/ p2 <= 0)%Z)
  /\ (returns (div_discount_model D d g1 p1 g2 p2 gc)
      <-> (1 <= p1 /\ 1 <= p2)%Z).
Proof.
  assert (Hcases : (1 <= p1 /\ 1 <= p2)%Z \/ (p1 <= 0 \/ p2 <= 0)%Z) by lia.
  destruct Hcases as [Hok | Hbad].
  - rewrite div_discount_model_value by lia. cbv zeta.
    split; [| split]; split.
    + discriminate.
    + lia.
    + intros [e He]. discriminate.
    + lia.
    + intros _. exact Hok.
    + intros _. eexists. reflexivity.
  - rewrite div_discount_model_periods by assumption.
    split; [| split]; split.
    + intros _. exact Hbad.
    + reflexivity.
    + intros _. exact Hbad.
    + intros _. eexists. reflexivity.
    + intros [v Hv]. discriminate.
    + lia.
Qed.

(** X6: Scaling the current dividend scales the value: the model is linear in
    [current_div], and a call that raises still raises. *)
Theorem div_discount_model_scales
    (c D d g1 : R) (p1 : Z) (g2 : R) (p2 : Z) (gc : R) :
  div_discount_model (c * D) d g1 p1 g2 p2 gc
  = match div_discount_model D d g1 p1 g2 p2 gc with
    | Ok v => Ok (c * v)
    | Raise e => Raise e
    end.
Proof.
  assert (Hcases : (1 <= p1 /\ 1 <= p2)%Z \/ (p1 <= 0 \/ p2 <= 0)%Z) by lia.
  destruct Hcases as [[H1 H2] | Hbad].
  - rewrite !div_discount_model_value by assumption. cbv zeta. f_equal.
    unfold present_value. rewrite <- pv_from_scale. f_equal.
    rewrite !map_app, !map_map. simpl map.
    f_equal; [apply map_ext; intros k; ring |].
    f_equal; [apply map_ext; intros k; ring |].
    f_equal. unfold Rdiv. ring.
  - rewrite !div_discount_model_periods by assumption. reflexivity.
Qed.

(** X7: With one growth rate in both phases, only the total number of years
    matters: any two ways of splitting it into two phases of at least one
    year give the same value. *)
Theorem div_discount_model_phase_split
    (D d g gc : R) (p1 p2 q1 q2 : Z) :
  (1 <= p1)%Z -> (1 <= p2)%Z -> (1 <= q1)%Z -> (1 <= q2)%Z ->
  (p1 + p2 = q1 + q2)%Z ->
  div_discount_model D d g p1 g p2 gc = div_discount_model D d g q1 g q2 gc.
Proof.
  intros Hp1 Hp2 Hq1 Hq2 Hsum.
  rewrite !div_discount_model_value by assumption. cbv zeta. f_equal.
  assert (Hjoin : forall n1 n2 : nat,
            D * (1 + g) ^ n1 * (1 + g) ^ n2 = D * (1 + g) ^ (n1 + n2))
    by (intros n1 n2; rewrite pow_add; ring).
  rewrite !app_assoc, !phases_join, !Hjoin.
  replace (Z.to_nat q1 + Z.to_nat q2)%nat
    with (Z.to_nat p1 + Z.to_nat p2)%nat by lia.
  reflexivity.
Qed.

Lemma div_discount_model_phase_split_witness :
  div_discount_model 2 0.08 0.05 5 0.05 5 0.03
  = div_discount_model 2 0.08 0.05 3 0.05 7 0.03.
Proof.
  apply (div_discount_model_phase_split 2 0.08 0.05 0.03 5 5 3 7); lia.
Defined.

(** X8: The terminal value is the Gordon growth value of the last projected
    dividend: the model returns the present value of the projected
    dividends plus that value discounted at the period index that follows
    the last dividend. *)
Theorem div_discount_model_terminal_gordon
    (D d g1 : R) (p1 : Z) (g2 : R) (p2 : Z) (gc : R) :
  (1 <= p1)%Z -> (1 <= p2)%Z -> d <> gc ->
  let n1 := Z.to_nat p1 in
  let n2 := Z.to_nat p2 in
  let last1 := D * (1 + g1) ^ n1 in
  let last2 := last1 * (1 + g2) ^ n2 in
  exists G,
    gordon_growth_model last2 gc d = Ok G
    /\ div_discount_model D d g1 p1 g2 p2 gc
       = Ok (present_value d
               (map (fun k => D * (1 + g1) ^ k) (seq 1 n1)
                ++ map (fun k => last1 * (1 + g2) ^ k) (seq 1 n2))
             + G / (1 + d) ^ (n1 + n2 + 1)).
Proof.
  intros H1 H2 Hne n1 n2 last1 last2.
  exists (last2 * (1 + gc) / (d - gc)).
  split; [apply gordon_value; assumption |].
  rewrite div_discount_model_value by assumption. cbv zeta. f_equal.
  fold n1 n2 last1 last2. unfold present_value.
  rewrite app_assoc, pv_from_app. f_equal.
  rewrite length_app, !length_map, !length_seq.
  replace (n1 + n2 + 1)%nat with (S (n1 + n2)) by lia. simpl. ring.
Qed.

Lemma div_discount_model_terminal_gordon_witness :
  let n1 := Z.to_nat 5 in
  let n2 := Z.to_nat 5 in
  let last1 := 2 * (1 + 0.1) ^ n1 in
  let last2 := last1 * (1 + 0.05) ^ n2 in
  exists G,
    gordon_growth_model last2 0.03 0.08 = Ok G
    /\ div_discount_model 2 0.08 0.1 5 0.05 5 0.03
       = Ok (present_value 0.08
               (map (fun k => 2 * (1 + 0.1) ^ k) (seq 1 n1)
                ++ map (fun k => last1 * (1 + 0.05) ^ k) (seq 1 n2))
             + G / (1 + 0.08) ^ (n1 + n2 + 1)).
Proof.
  apply (div_discount_model_terminal_gordon 2 0.08 0.1 5 0.05 5 0.03);
    (lia || lra).
Defined.

Lemma Forall_compound_pos (c x : R) (a n : nat) :
  0 < c -> 0 < x -> Forall (fun y => 0 < y) (map (fun k => c * x ^ k) (seq a n)).
Proof.
  intros Hc Hx. apply Forall_forall. intros y Hy.
  apply list_elem_of_In, in_map_iff in Hy. destruct Hy as (k & <- & _).
  apply Rmult_lt_0_compat; [assumption | apply pow_lt; assumption].
Qed.

(** X9: On a positive dividend, with growth rates above -1 and a discount rate
    above the terminal growth rate, the value returned is positive. *)
Theorem div_discount_model_positive
    (D d g1 : R) (p1 : Z) (g2 : R) (p2 : Z) (gc : R) :
  0 < D -> -1 < g1 -> -1 < g2 -> -1 < gc -> gc < d ->
  (1 <= p1)%Z -> (1 <= p2)%Z ->
  exists v, div_discount_model D d g1 p1 g2 p2 gc = Ok v /\ 0 < v.
Proof.
  intros HD Hg1 Hg2 Hgc Hd H1 H2. eexists.
  split; [apply div_discount_model_value; assumption |]. cbv zeta.
  assert (Hl1 : 0 < D * (1 + g1) ^ Z.to_nat p1).
  { apply Rmult_lt_0_compat; [assumption | apply pow_lt; lra]. }
  assert (Hl2 : 0 < D * (1 + g1) ^ Z.to_nat p1 * (1 + g2) ^ Z.to_nat p2).
  { apply Rmult_lt_0_compat; [assumption | apply pow_lt; lra]. }
  apply pv_from_pos; [lra | |].
  - apply Forall_app. split; [apply Forall_compound_pos; lra |].
    apply Forall_app. split; [apply Forall_compound_pos; lra |].
    constructor; [| constructor].
    apply Rdiv_lt_0_compat; [| lra].
    apply Rmult_lt_0_compat; lra.
  - destruct (Z.to_nat p1) as [| n] eqn:E; [lia |]. discriminate.
Qed.

Lemma div_discount_model_positive_witness :
  exists v, div_discount_model 2 0.08 0.1 5 0.05 5 0.03 = Ok v /\ 0 < v.
Proof.
  apply (div_discount_model_positive 2 0.08 0.1 5 0.05 5 0.03); (lia || lra).
Defined.

(** *** The discounted cash flow simulation, continued *)

(** X11: Which exception a short history raises: ZeroDivisionError for a single
    observation (the exponent [1.0/n] with [n = 0]), IndexError otherwise
    (index 0 of an empty history, index 9 of a history of 2 to 9). *)
Theorem discount_cash_flow_exception (fcf : list R)
    (r1 r2 discount shares beta : R) (st : Np.RandomState) :
  (length fcf < 10)%nat ->
  discount_cash_flow fcf r1 r2 discount shares beta st
  = Raise (if decide (length fcf = 1%nat)
           then ZeroDivisionError else IndexError).
Proof.
  intros H. destruct fcf as [| x [| y t]].
  - apply discount_cash_flow_empty.
  - apply discount_cash_flow_single.
  - rewrite discount_cash_flow_short by (simpl in *; lia).
    destruct (decide (length (x :: y :: t) = 1%nat)) as [E | _];
      [simpl in E; lia | reflexivity].
Qed.

Lemma discount_cash_flow_exception_witness :
  discount_cash_flow [120] 0.09 0.05 0.1 10 1 (Np.mkRandomState (fun _ => 0) 0)
  = Raise (if decide (length [120] = 1%nat)
           then ZeroDivisionError else IndexError).
Proof.
  apply (discount_cash_flow_exception [120]). simpl. lia.
Defined.

(** X12: The second phase of a trial starts from the tenth projected value, noise
    included, and compounds it at [proj_rate2] for ten more years, each
    year perturbed by one of the next ten draws. *)
Theorem dcf_project_second_phase (fcf : list R) (r1 r2 : R)
    (st : Np.RandomState) :
  (10 <= length fcf)%nat ->
  exists projtotal proj9,
    dcf_project fcf r1 r2 st = Ok (projtotal, Np.advance st 20)
    /\ length projtotal = 20%nat
    /\ projtotal !! 9%nat = Some proj9
    /\ forall k, (k < 10)%nat ->
         projtotal !! (10 + k)%nat
         = Some (proj9 * (1 + r2) ^ S k
                 + sample_std fcf * Np.draws st (Np.cursor st + 10 + k)).
Proof.
  intros H.
  set (z := fun k => Np.draws st (Np.cursor st + k)).
  set (proj := noisy_compound (nth 9 fcf 0) r1 (Np.std fcf 1) z).
  exists (projected fcf r1 r2 st), (nth 9 proj 0).
  split; [apply dcf_project_ok; assumption |].
  split; [apply length_projected |].
  unfold projected. cbv zeta. fold z. fold proj. split.
  - rewrite lookup_app_l by (unfold proj; rewrite length_noisy_compound; lia).
    destruct (nth_lookup_or_length proj 9 0) as [E | E]; [exact E |].
    unfold proj in E. rewrite length_noisy_compound in E. lia.
  - intros k Hk.
    rewrite lookup_app_r by (unfold proj; rewrite length_noisy_compound; lia).
    replace (10 + k - length proj)%nat with k
      by (unfold proj; rewrite length_noisy_compound; lia).
    rewrite lookup_noisy_compound by assumption.
    rewrite std_sample_std. unfold z. do 4 f_equal. lia.
Qed.

Lemma dcf_project_second_phase_witness :
  let fcf := [1; 2; 3; 4; 5; 6; 7; 8; 9; 10; 11] in
  let st := Np.mkRandomState (fun k => INR k) 40 in
  exists projtotal proj9,
    dcf_project fcf 0.09 0.05 st = Ok (projtotal, Np.advance st 20)
    /\ length projtotal = 20%nat
    /\ projtotal !! 9%nat = Some proj9
    /\ forall k, (k < 10)%nat ->
         projtotal !! (10 + k)%nat
         = Some (proj9 * (1 + 0.05) ^ S k
                 + sample_std fcf * Np.draws st (Np.cursor st + 10 + k)).
Proof.
  cbv zeta.
  apply (dcf_project_second_phase [1; 2; 3; 4; 5; 6; 7; 8; 9; 10; 11]).
  simpl. lia.
Defined.

Lemma list_eq_by_lookup (n : nat) (v w : list R) :
  length v = n -> length w = n ->
  (forall i, (i < n)%nat -> v !! i = w !! i) -> v = w.
Proof.
  intros Lv Lw H. apply list_eq. intros i.
  destruct (le_lt_dec n i) as [Hge | Hlt]; [| apply H; assumption].
  rewrite !lookup_ge_None_2 by lia. reflexivity.
Qed.

Lemma noisy_compound_ext (start rate sigma : R) (z z' : nat -> R) :
  (forall k, (k < 10)%nat -> z k = z' k) ->
  noisy_compound start rate sigma z = noisy_compound start rate sigma z'.
Proof.
  intros H. unfold noisy_compound. apply map_ext_in. intros k Hk.
  apply in_seq in Hk. rewrite H by lia. reflexivity.
Qed.

Lemma projected_ext (series : list R) (r1 r2 : R) (st st' : Np.RandomState) :
  (forall k, (k < 20)%nat ->
     Np.draws st (Np.cursor st + k) = Np.draws st' (Np.cursor st' + k)) ->
  projected series r1 r2 st = projected series r1 r2 st'.
Proof.
  intros H. unfold projected. cbv zeta.
  rewrite (noisy_compound_ext _ r1 _ _
             (fun k => Np.draws st' (Np.cursor st' + k)))
    by (intros k Hk; apply H; lia).
  f_equal. apply noisy_compound_ext. intros k Hk. apply H. lia.
Qed.

(** X13: The result depends on the generator only through its next 2000 draws:
    two calls on the same arguments whose generators agree on these draws
    return the same growth rate and the same two arrays, and each leaves
    its generator 2000 draws further. *)
Theorem discount_cash_flow_draws_local (fcf : list R)
    (r1 r2 discount shares beta : R) (st st' : Np.RandomState) :
  (10 <= length fcf)%nat ->
  (forall k, (k < 2000)%nat ->
     Np.draws st (Np.cursor st + k) = Np.draws st' (Np.cursor st' + k)) ->
  exists c v1 v2,
    discount_cash_flow fcf r1 r2 discount shares beta st
    = Ok ((c, v1, v2), Np.advance st 2000)
    /\ discount_cash_flow fcf r1 r2 discount shares beta st'
       = Ok ((c, v1, v2), Np.advance st' 2000).
Proof.
  intros H Hz.
  destruct (discount_cash_flow_ok fcf r1 r2 discount shares beta st H)
    as (v1 & v2 & E & L1 & L2 & Hin).
  destruct (discount_cash_flow_ok fcf r1 r2 discount shares beta st' H)
    as (w1 & w2 & E' & M1 & M2 & Hin').
  assert (HP : forall i, (i < 100)%nat ->
            projected (preprocessed fcf) r1 r2 (Np.advance st (20 * i))
            = projected (preprocessed fcf) r1 r2 (Np.advance st' (20 * i))).
  { intros i Hi. apply projected_ext. intros k Hk. simpl.
    rewrite <- !Nat.add_assoc. apply Hz. lia. }
  assert (E1 : v1 = w1).
  { apply (list_eq_by_lookup 100); try assumption. intros i Hi.
    destruct (Hin i Hi) as [-> _]. destruct (Hin' i Hi) as [-> _].
    rewrite HP by assumption. reflexivity. }
  assert (E2 : v2 = w2).
  { apply (list_eq_by_lookup 100); try assumption. intros i Hi.
    destruct (Hin i Hi) as [_ ->]. destruct (Hin' i Hi) as [_ ->].
    rewrite HP by assumption. reflexivity. }
  subst w1 w2. exists (cagr fcf), v1, v2. split; assumption.
Qed.

Lemma discount_cash_flow_draws_local_witness :
  let fcf := [1; 2; 3; 4; 5; 6; 7; 8; 9; 10; 11] in
  let st := Np.mkRandomState (fun k => INR k) 5 in
  let st' := Np.mkRandomState (fun k => INR (k + 5)) 0 in
  exists c v1 v2,
    discount_cash_flow fcf 0.09 0.05 0.1 10 1 st
    = Ok ((c, v1, v2), Np.advance st 2000)
    /\ discount_cash_flow fcf 0.09 0.05 0.1 10 1 st'
       = Ok ((c, v1, v2), Np.advance st' 2000).
Proof.
  cbv zeta.
  apply (discount_cash_flow_draws_local [1; 2; 3; 4; 5; 6; 7; 8; 9; 10; 11]).
  - simpl. lia.
  - intros k Hk. cbn [Np.draws Np.cursor]. f_equal. lia.
Defined.

(** X15: The estimates are per share: multiplying a nonzero share count by a
    nonzero factor divides every estimate of both arrays by that factor and
    changes nothing else. *)
Theorem discount_cash_flow_shares_scale (fcf : list R)
    (r1 r2 discount shares beta k : R) (st : Np.RandomState) :
  (10 <= length fcf)%nat -> shares <> 0 -> k <> 0 ->
  exists c v1 v2 st',
    discount_cash_flow fcf r1 r2 discount shares beta st
    = Ok ((c, v1, v2), st')
    /\ discount_cash_flow fcf r1 r2 discount (k * shares) beta st
       = Ok ((c, map (fun x => x / k) v1, map (fun x => x / k) v2), st').
Proof.
  intros H Hs Hk.
  destruct (discount_cash_flow_ok fcf r1 r2 discount shares beta st H)
    as (v1 & v2 & E & L1 & L2 & Hin).
  destruct (discount_cash_flow_ok fcf r1 r2 discount (k * shares) beta st H)
    as (w1 & w2 & E' & M1 & M2 & Hin').
  exists (cagr fcf), v1, v2, (Np.advance st 2000). split; [exact E |].
  rewrite E'. do 3 f_equal.
  - f_equal. apply (list_eq_by_lookup 100);
      [assumption | rewrite length_map; assumption |].
    intros i Hi. destruct (Hin i Hi) as [Ev _]. destruct (Hin' i Hi) as [-> _].
    change (@map R R) with (@fmap list _ R R).
    rewrite list_lookup_fmap, Ev. simpl. f_equal. field. split; assumption.
  - apply (list_eq_by_lookup 100);
      [assumption | rewrite length_map; assumption |].
    intros i Hi. destruct (Hin i Hi) as [_ Ev]. destruct (Hin' i Hi) as [_ ->].
    change (@map R R) with (@fmap list _ R R).
    rewrite list_lookup_fmap, Ev. simpl. f_equal. field. split; assumption.
Qed.

Lemma discount_cash_flow_shares_scale_witness :
  exists c v1 v2 st',
    discount_cash_flow [1; 2; 3; 4; 5; 6; 7; 8; 9; 10; 11] 0.09 0.05 0.1 10 1
      (Np.mkRandomState (fun k => INR k) 0)
    = Ok ((c, v1, v2), st')
    /\ discount_cash_flow [1; 2; 3; 4; 5; 6; 7; 8; 9; 10; 11] 0.09 0.05 0.1
         (2 * 10) 1 (Np.mkRandomState (fun k => INR k) 0)
       = Ok ((c, map (fun x => x / 2) v1, map (fun x => x / 2) v2), st').
Proof.
  apply (discount_cash_flow_shares_scale [1; 2; 3; 4; 5; 6; 7; 8; 9; 10; 11]);
    [simpl; lia | lra | lra].
Defined.

(** **** A constant history *)

Lemma sum_replicate (n : nat) (c : R) : Np.sum (replicate n c) = INR n * c.
Proof.
  induction n as [| n IH]; [simpl; ring |].
  rewrite S_INR. simpl replicate. simpl Np.sum. fold (Np.sum (replicate n c)).
  rewrite IH. ring.
Qed.

Lemma mean_replicate (n : nat) (c : R) :
  (1 <= n)%nat -> Np.mean (replicate n c) = c.
Proof.
  intros H. unfold Np.mean. rewrite sum_replicate, length_replicate.
  field. apply not_0_INR. lia.
Qed.

Lemma std_replicate (n : nat) (c : R) :
  (1 <= n)%nat -> Np.std (replicate n c) 1 = 0.
Proof.
  intros H. unfold Np.std. rewrite mean_replicate by assumption.
  change (@map R R) with (@fmap list _ R R).
  rewrite fmap_replicate, sum_replicate.
  replace (INR n * (c - c) ^ 2 / IZR (len (replicate n c) - 1)) with 0
    by (unfold Rdiv; ring).
  apply sqrt_0.
Qed.

Lemma preprocessed_replicate (n : nat) (c : R) :
  preprocessed (replicate n c) = replicate n c.
Proof.
  destruct n as [| m]; [reflexivity |].
  change (replicate (S m) c) with (c :: replicate m c) at 1.
  unfold preprocessed. destruct (Rlt_dec c 0); [| reflexivity].
  change (c :: replicate m c) with (replicate (S m) c).
  rewrite mean_replicate by lia. reflexivity.
Qed.

Lemma last_replicate (n : nat) (c : R) :
  (1 <= n)%nat -> List.last (replicate n c) 0 = c.
Proof.
  intros H. destruct n as [| m]; [lia |].
  rewrite replicate_S_end. apply List.last_last.
Qed.

Lemma projected_replicate (n : nat) (c r1 r2 : R) (st : Np.RandomState) :
  (10 <= n)%nat ->
  projected (replicate n c) r1 r2 st = steady_projection c r1 r2.
Proof.
  intros H. unfold projected. cbv zeta.
  rewrite std_replicate by lia.
  rewrite (nth_lookup_Some (replicate n c) 9 0 c)
    by (apply lookup_replicate_2; lia).
  set (z := fun k => Np.draws st (Np.cursor st + k)).
  rewrite (nth_lookup_Some (noisy_compound c r1 0 z) 9 0
             (c * (1 + r1) ^ 10 + 0 * z 9%nat))
    by (apply lookup_noisy_compound; lia).
  unfold steady_projection, noisy_compound.
  f_equal; apply map_ext; intros k; ring.
Qed.

Lemma float_power_1 (e : R) : Np.float_power 1 e = 1.
Proof.
  unfold Np.float_power. destruct (Rlt_dec 0 1) as [_ | H]; [| lra].
  unfold Rpower. rewrite ln_1, Rmult_0_r. apply exp_0.
Qed.

(** X16: A history that repeats one value has no spread, so no noise enters the
    projection: every one of the 100 estimates of an array is the same
    number, the present value of the noiseless projection per share,
    whatever the generator draws; the growth rate is 0 unless the value
    is 0. *)
Theorem discount_cash_flow_constant_history (n : nat)
    (c r1 r2 discount shares beta : R) (st : Np.RandomState) :
  (10 <= n)%nat ->
  exists g v1 v2,
    discount_cash_flow (replicate n c) r1 r2 discount shares beta st
    = Ok ((g, v1, v2), Np.advance st 2000)
    /\ (c <> 0 -> g = 0)
    /\ v1 = replicate 100
              (pv_from 1 discount (steady_projection c r1 r2) / shares)
    /\ v2 = replicate 100
              (pv_from 1 ((2.5 + beta * (9.11 - 2.5)) / 100)
                 (steady_projection c r1 r2) / shares).
Proof.
  intros H.
  destruct (discount_cash_flow_ok (replicate n c) r1 r2 discount shares beta st)
    as (v1 & v2 & E & L1 & L2 & Hin); [rewrite length_replicate; exact H |].
  exists (cagr (replicate n c)), v1, v2. split; [exact E |]. split; [| split].
  - intros Hc. unfold cagr. cbv zeta.
    rewrite preprocessed_replicate, last_replicate by lia.
    replace (hd 0 (replicate n c)) with c
      by (destruct n; [lia | reflexivity]).
    replace (c / c) with 1 by (field; assumption).
    rewrite float_power_1. ring.
  - apply (list_eq_by_lookup 100);
      [assumption | apply length_replicate |].
    intros i Hi. destruct (Hin i Hi) as [-> _].
    rewrite lookup_replicate_2 by assumption.
    rewrite preprocessed_replicate, projected_replicate by assumption.
    reflexivity.
  - apply (list_eq_by_lookup 100);
      [assumption | apply length_replicate |].
    intros i Hi. destruct (Hin i Hi) as [_ ->].
    rewrite lookup_replicate_2 by assumption.
    rewrite preprocessed_replicate, projected_replicate by assumption.
    reflexivity.
Qed.

Lemma discount_cash_flow_constant_history_witness :
  exists g v1 v2,
    discount_cash_flow (replicate 11 250) 0.09 0.05 0.1 10 1
      (Np.mkRandomState (fun k => INR k) 0)
    = Ok ((g, v1, v2), Np.advance (Np.mkRandomState (fun k => INR k) 0) 2000)
    /\ (250 <> 0 -> g = 0)
    /\ v1 = replicate 100
              (pv_from 1 0.1 (steady_projection 250 0.09 0.05) / 10)
    /\ v2 = replicate 100
              (pv_from 1 ((2.5 + 1 * (9.11 - 2.5)) / 100)
                 (steady_projection 250 0.09 0.05) / 10).
Proof.
  apply (discount_cash_flow_constant_history 11 250). lia.
Defined.

(** **** The growth rate *)

Lemma sum_scale (k : R) (l : list R) :
  Np.sum (map (Rmult k) l) = k * Np.sum l.
Proof.
  induction l as [| x l IH]; simpl; [ring |].
  fold (Np.sum (map (Rmult k) l)). fold (Np.sum l). rewrite IH. ring.
Qed.

Lemma mean_scale (k : R) (l : list R) :
  Np.mean (map (Rmult k) l) = k * Np.mean l.
Proof.
  unfold Np.mean. rewrite sum_scale, length_map. unfold Rdiv. ring.
Qed.

Lemma last_scale (k : R) (l : list R) :
  l <> [] -> List.last (map (Rmult k) l) 0 = k * List.last l 0.
Proof.
  intros H. destruct (exists_last H) as [l' [x ->]].
  rewrite map_app. simpl map. rewrite !List.last_last. reflexivity.
Qed.

Lemma hd_preprocessed (l : list R) :
  hd 0 (preprocessed l)
  = if Rlt_dec (hd 0 l) 0 then Np.mean l else hd 0 l.
Proof.
  destruct l as [| x t]; simpl.
  - destruct (Rlt_dec 0 0); [lra | reflexivity].
  - destruct (Rlt_dec x 0); reflexivity.
Qed.

Lemma hd_scale (k : R) (l : list R) : hd 0 (map (Rmult k) l) = k * hd 0 l.
Proof. destruct l as [| x t]; simpl; [ring | reflexivity]. Qed.

Lemma cagr_scale (k : R) (fcf : list R) :
  0 < k -> fcf <> [] ->
  0 < hd 0 fcf \/ (hd 0 fcf < 0 /\ Np.mean fcf <> 0) ->
  cagr (map (Rmult k) fcf) = cagr fcf.
Proof.
  intros Hk Hne Hfirst. unfold cagr. cbv zeta.
  rewrite length_map, last_scale by assumption.
  rewrite !hd_preprocessed, hd_scale, mean_scale.
  set (x := hd 0 fcf) in *. set (m := Np.mean fcf) in *.
  set (l := List.last fcf 0).
  destruct (Rlt_dec (k * x) 0) as [Hkx | Hkx];
    destruct (Rlt_dec x 0) as [Hx | Hx].
  - replace (k * l / (k * m)) with (l / m); [reflexivity |].
    field. split; [| lra]. destruct Hfirst as [Hp | [_ Hm]]; [lra | exact Hm].
  - exfalso. nra.
  - exfalso. nra.
  - replace (k * l / (k * x)) with (l / x); [reflexivity |].
    field. split; [| lra]. destruct Hfirst as [Hp | [Hn _]]; lra.
Qed.

(** X17: The growth rate does not depend on the unit of the history: a history
    multiplied by a positive factor (thousands instead of millions) gives
    the same growth rate, the first observation, or the mean that replaces
    a negative one, being nonzero. *)
Theorem discount_cash_flow_cagr_unit (k : R) (fcf : list R)
    (r1 r2 discount shares beta : R) (st : Np.RandomState) :
  (10 <= length fcf)%nat -> 0 < k ->
  0 < hd 0 fcf \/ (hd 0 fcf < 0 /\ Np.mean fcf <> 0) ->
  exists c v1 v2 s w1 w2 s',
    discount_cash_flow fcf r1 r2 discount shares beta st = Ok ((c, v1, v2), s)
    /\ discount_cash_flow (map (Rmult k) fcf) r1 r2 discount shares beta st
       = Ok ((c, w1, w2), s').
Proof.
  intros H Hk Hfirst.
  destruct (discount_cash_flow_ok fcf r1 r2 discount shares beta st H)
    as (v1 & v2 & E & _).
  destruct (discount_cash_flow_ok (map (Rmult k) fcf) r1 r2 discount shares
              beta st) as (w1 & w2 & E' & _); [rewrite length_map; exact H |].
  rewrite cagr_scale in E'
    by (assumption || (intros ->; simpl in H; lia)).
  exists (cagr fcf), v1, v2, (Np.advance st 2000), w1, w2, (Np.advance st 2000).
  split; assumption.
Qed.

Lemma discount_cash_flow_cagr_unit_witness :
  let fcf := [-4; 2; 3; 4; 5; 6; 7; 8; 9; 10; 16] in
  let st := Np.mkRandomState (fun k => INR k) 0 in
  exists c v1 v2 s w1 w2 s',
    discount_cash_flow fcf 0.09 0.05 0.1 10 1 st = Ok ((c, v1, v2), s)
    /\ discount_cash_flow (map (Rmult 1000) fcf) 0.09 0.05 0.1 10 1 st
       = Ok ((c, w1, w2), s').
Proof.
  cbv zeta.
  apply (discount_cash_flow_cagr_unit 1000
           [-4; 2; 3; 4; 5; 6; 7; 8; 9; 10; 16]).
  - simpl. lia.
  - lra.
  - right. unfold Np.mean, Np.sum. simpl. split; lra.
Defined.

Lemma Rpower_vs_1 (x e : R) :
  0 < x -> 0 < e ->
  (1 < x -> 1 < Rpower x e)
  /\ (x = 1 -> Rpower x e = 1)
  /\ (x < 1 -> Rpower x e < 1).
Proof.
  intros Hx He. unfold Rpower. repeat split.
  - intros H1.
    pose proof (ln_increasing 1 x ltac:(lra) H1) as Hl. rewrite ln_1 in Hl.
    assert (Hexp : exp 0 < exp (e * ln x)).
    { apply exp_increasing. apply Rmult_lt_0_compat; assumption. }
    rewrite exp_0 in Hexp. exact Hexp.
  - intros ->. rewrite ln_1, Rmult_0_r. apply exp_0.
  - intros H1.
    pose proof (ln_increasing x 1 Hx H1) as Hl. rewrite ln_1 in Hl.
    assert (Hexp : exp (e * ln x) < exp 0).
    { apply exp_increasing. nra. }
    rewrite exp_0 in Hexp. exact Hexp.
Qed.

Lemma Rpower_root_pow (x : R) (m : nat) :
  0 < x -> (1 <= m)%nat -> Rpower x (1 / INR m) ^ m = x.
Proof.
  intros Hx Hm.
  rewrite <- Rpower_pow by (unfold Rpower; apply exp_pos).
  rewrite Rpower_mult.
  replace (1 / INR m * INR m) with 1
    by (field; apply not_0_INR; lia).
  apply Rpower_1. assumption.
Qed.

(** X18: The growth rate returned is the compound annual growth rate of a
    history with positive first and last observations: compounding the
    first observation at that rate over the [n - 1] years of the history
    gives the last one.  It is positive, zero or negative as the last
    observation is above, equal to or below the first. *)
Theorem discount_cash_flow_cagr_compounds (fcf : list R)
    (r1 r2 discount shares beta : R) (st : Np.RandomState) :
  (10 <= length fcf)%nat -> 0 < hd 0 fcf -> 0 < List.last fcf 0 ->
  exists c v1 v2 st',
    discount_cash_flow fcf r1 r2 discount shares beta st
    = Ok ((c, v1, v2), st')
    /\ hd 0 fcf * (1 + c) ^ (length fcf - 1) = List.last fcf 0
    /\ (0 < c <-> hd 0 fcf < List.last fcf 0)
    /\ (c = 0 <-> hd 0 fcf = List.last fcf 0)
    /\ (c < 0 <-> List.last fcf 0 < hd 0 fcf).
Proof.
  intros H Hfirst Hlast.
  destruct (discount_cash_flow_ok fcf r1 r2 discount shares beta st H)
    as (v1 & v2 & E & _).
  exists (cagr fcf), v1, v2, (Np.advance st 2000). split; [exact E |].
  unfold cagr. cbv zeta. rewrite hd_preprocessed.
  set (a := hd 0 fcf) in *. set (b := List.last fcf 0) in *.
  destruct (Rlt_dec a 0) as [Hneg | _]; [lra |].
  assert (Hx : 0 < b / a) by (apply Rdiv_lt_0_compat; assumption).
  assert (Hm : INR (length fcf) - 1 = INR (length fcf - 1)).
  { rewrite minus_INR by lia. reflexivity. }
  assert (Hpos : 0 < INR (length fcf - 1)) by (apply lt_0_INR; lia).
  rewrite Hm. unfold Np.float_power.
  destruct (Rlt_dec 0 (b / a)) as [_ | Hn]; [| contradiction].
  assert (He : 0 < 1 / INR (length fcf - 1))
    by (apply Rdiv_lt_0_compat; lra).
  destruct (Rpower_vs_1 (b / a) (1 / INR (length fcf - 1)) Hx He)
    as (Hgt & Heq & Hlt).
  assert (Hba : (1 < b / a <-> a < b) /\ (b / a = 1 <-> a = b)
                /\ (b / a < 1 <-> b < a)).
  { assert (Hb : b = (b / a) * a) by (field; lra).
    repeat split; intros; nra. }
  destruct Hba as (Bgt & Beq & Blt).
  set (p := Rpower (b / a) (1 / INR (length fcf - 1))) in *.
  split.
  - replace (1 + (p - 1)) with p by ring. unfold p.
    rewrite Rpower_root_pow by (assumption || lia). field. lra.
  - destruct (Rtotal_order (b / a) 1) as [Hc | [Hc | Hc]].
    + specialize (Hlt Hc). apply Blt in Hc.
      repeat split; intros; lra.
    + specialize (Heq Hc). apply Beq in Hc.
      repeat split; intros; lra.
    + specialize (Hgt Hc). apply Bgt in Hc.
      repeat split; intros; lra.
Qed.

Lemma discount_cash_flow_cagr_compounds_witness :
  let fcf := [1; 2; 4; 8; 16; 32; 64; 128; 256; 512; 1024] in
  let st := Np.mkRandomState (fun k => INR k) 0 in
  exists c v1 v2 st',
    discount_cash_flow fcf 0.09 0.05 0.1 10 1 st = Ok ((c, v1, v2), st')
    /\ hd 0 fcf * (1 + c) ^ (length fcf - 1) = List.last fcf 0
    /\ (0 < c <-> hd 0 fcf < List.last fcf 0)
    /\ (c = 0 <-> hd 0 fcf = List.last fcf 0)
    /\ (c < 0 <-> List.last fcf 0 < hd 0 fcf).
Proof.
  cbv zeta.
  apply (discount_cash_flow_cagr_compounds
           [1; 2; 4; 8; 16; 32; 64; 128; 256; 512; 1024]).
  - simpl. lia.
  - simpl. lra.
  - simpl. lra.
Defined.

(** *** The dividend discount model and the discount rate *)

Lemma pow_lt_base (x y : R) (n : nat) :
  0 < x -> x < y -> (1 <= n)%nat -> x ^ n < y ^ n.
Proof.
  intros Hx Hxy Hn. destruct n as [| n]; [lia |]. clear Hn.
  induction n as [| n IH]; [simpl; lra |].
  change (x ^ S (S n)) with (x * x ^ S n).
  change (y ^ S (S n)) with (y * y ^ S n).
  assert (0 < x ^ S n) by (apply pow_lt; assumption).
  nra.
Qed.

Lemma discounted_lt (x x' d d' : R) (k : nat) :
  0 < x' -> x' <= x -> 0 < 1 + d -> d < d' -> (1 <= k)%nat ->
  x' / (1 + d') ^ k < x / (1 + d) ^ k.
Proof.
  intros Hx' Hx Hd Hdd Hk.
  assert (Hp : 0 < (1 + d) ^ k) by (apply pow_lt; assumption).
  assert (Hlt : (1 + d) ^ k < (1 + d') ^ k)
    by (apply pow_lt_base; (lra || assumption)).
  assert (Hinv : / (1 + d') ^ k < / (1 + d) ^ k).
  { apply Rinv_lt_contravar; [| assumption].
    apply Rmult_lt_0_compat; lra. }
  assert (Hi' : 0 < / (1 + d') ^ k) by (apply Rinv_0_lt_compat; lra).
  unfold Rdiv. nra.
Qed.

Lemma pv_from_rate_le (d d' : R) (xs : list R) (k : nat) :
  0 < 1 + d -> d < d' -> (1 <= k)%nat -> Forall (fun x => 0 < x) xs ->
  pv_from k d' xs <= pv_from k d xs.
Proof.
  intros Hd Hdd Hk Hxs. revert k Hk.
  induction Hxs as [| x xs Hx _ IH]; intros k Hk; simpl; [lra |].
  pose proof (discounted_lt x x d d' k Hx ltac:(lra) Hd Hdd Hk).
  specialize (IH (S k) ltac:(lia)). lra.
Qed.

Lemma pv_from_rate_lt (d d' : R) (xs : list R) (k : nat) :
  0 < 1 + d -> d < d' -> (1 <= k)%nat -> Forall (fun x => 0 < x) xs ->
  xs <> [] -> pv_from k d' xs < pv_from k d xs.
Proof.
  intros Hd Hdd Hk Hxs Hne. destruct Hxs as [| x xs Hx Hxs]; [contradiction |].
  simpl.
  pose proof (discounted_lt x x d d' k Hx ltac:(lra) Hd Hdd Hk).
  pose proof (pv_from_rate_le d d' xs (S k) Hd Hdd ltac:(lia) Hxs). lra.
Qed.

(** X10: On a positive dividend with growth rates above -1, a higher discount
    rate, both rates being above the terminal growth rate, gives a strictly
    lower value. *)
Theorem div_discount_model_decreasing
    (D d d' g1 : R) (p1 : Z) (g2 : R) (p2 : Z) (gc : R) :
  0 < D -> -1 < g1 -> -1 < g2 -> -1 < gc -> gc < d -> d < d' ->
  (1 <= p1)%Z -> (1 <= p2)%Z ->
  exists v v',
    div_discount_model D d g1 p1 g2 p2 gc = Ok v
    /\ div_discount_model D d' g1 p1 g2 p2 gc = Ok v'
    /\ v' < v.
Proof.
  intros HD Hg1 Hg2 Hgc Hd Hdd H1 H2. do 2 eexists.
  split; [apply div_discount_model_value; assumption |].
  split; [apply div_discount_model_value; assumption |]. cbv zeta.
  set (n1 := Z.to_nat p1). set (n2 := Z.to_nat p2).
  set (last1 := D * (1 + g1) ^ n1). set (last2 := last1 * (1 + g2) ^ n2).
  assert (Hl1 : 0 < last1).
  { apply Rmult_lt_0_compat; [assumption | apply pow_lt; lra]. }
  assert (Hl2 : 0 < last2).
  { apply Rmult_lt_0_compat; [assumption | apply pow_lt; lra]. }
  set (phases := map (fun k => D * (1 + g1) ^ k) (seq 1 n1)
                 ++ map (fun k => last1 * (1 + g2) ^ k) (seq 1 n2)).
  assert (Hph : Forall (fun x => 0 < x) phases).
  { apply Forall_app. split; apply Forall_compound_pos; lra. }
  assert (Hne : phases <> []).
  { unfold phases. subst n1. destruct (Z.to_nat p1) eqn:E; [lia |]. discriminate. }
  unfold present_value. rewrite !app_assoc. fold phases.
  rewrite !pv_from_app. simpl pv_from.
  pose proof (pv_from_rate_lt d d' phases 1 ltac:(lra) Hdd ltac:(lia) Hph Hne).
  assert (Ht : last2 * (1 + gc) / (d' - gc) / (1 + d') ^ (1 + length phases)
               < last2 * (1 + gc) / (d - gc) / (1 + d) ^ (1 + length phases)).
  { apply discounted_lt; try lra; try lia.
    - apply Rdiv_lt_0_compat; [| lra]. apply Rmult_lt_0_compat; lra.
    - assert (Hinv : / (d' - gc) < / (d - gc)).
      { apply Rinv_lt_contravar; [| lra]. apply Rmult_lt_0_compat; lra. }
      assert (0 < last2 * (1 + gc)) by (apply Rmult_lt_0_compat; lra).
      unfold Rdiv. nra. }
  change (1 + length phases)%nat with (S (length phases)) in Ht.
  simpl pow in Ht. lra.
Qed.

Lemma div_discount_model_decreasing_witness :
  exists v v',
    div_discount_model 2 0.08 0.1 5 0.05 5 0.03 = Ok v
    /\ div_discount_model 2 0.1 0.1 5 0.05 5 0.03 = Ok v'
    /\ v' < v.
Proof.
  apply (div_discount_model_decreasing 2 0.08 0.1 0.1 5 0.05 5 0.03);
    (lia || lra).
Defined.

(** *** The growth rate formula *)

(** C6: for every history of at least 10 observations (so for every valid
    history) the call returns, and the growth rate it returns is
    [(last/first)^(1/(n-1)) - 1] for the series length [n], where [first]
    is the earliest observation, replaced by the arithmetic mean of the
    full history when it is negative.  The ratio [last/first] is taken
    where the real formula is defined: [first] nonzero and the ratio not
    negative.  For a positive ratio the power is [exp (ln ratio / (n-1))];
    for a zero ratio it is 0.  In both cases [1 + cagr] is the nonnegative
    [(n-1)]-th root of the ratio. *)
Theorem discount_cash_flow_cagr (fcf : list R) (r1 r2 discount shares beta : R)
    (st : Np.RandomState) :
  (10 <= length fcf)%nat ->
  let n := INR (length fcf) in
  let mean := fold_right Rplus 0 fcf / n in
  let first := if Rlt_dec (hd 0 fcf) 0 then mean else hd 0 fcf in
  let last := List.last fcf 0 in
  first <> 0 -> 0 <= last / first ->
  exists c v1 v2 st',
    discount_cash_flow fcf r1 r2 discount shares beta st
    = Ok ((c, v1, v2), st')
    /\ (0 < last / first -> c = Rpower (last / first) (1 / (n - 1)) - 1)
    /\ (last / first = 0 -> c = 0 - 1)
    /\ 0 <= 1 + c
    /\ (1 + c) ^ (length fcf - 1) = last / first.
Proof.
  intros H n mean first last Hfirst Hratio.
  destruct (discount_cash_flow_ok fcf r1 r2 discount shares beta st H)
    as (v1 & v2 & E & _).
  exists (cagr fcf), v1, v2, (Np.advance st 2000). split; [exact E |].
  assert (Hm : n - 1 = INR (length fcf - 1)).
  { unfold n. rewrite minus_INR by lia. reflexivity. }
  assert (He : 0 < 1 / (n - 1)).
  { rewrite Hm. apply Rdiv_lt_0_compat; [lra | apply lt_0_INR; lia]. }
  assert (Hc : cagr fcf = Np.float_power (last / first) (1 / (n - 1)) - 1).
  { unfold cagr. cbv zeta. rewrite hd_preprocessed. reflexivity. }
  rewrite Hc. unfold Np.float_power.
  destruct (Rlt_dec 0 (last / first)) as [Hpos | Hnpos].
  - split; [intros _; reflexivity |]. split; [intros E0; lra |].
    replace (1 + (Rpower (last / first) (1 / (n - 1)) - 1))
      with (Rpower (last / first) (1 / (n - 1))) by ring.
    split; [left; unfold Rpower; apply exp_pos |].
    rewrite Hm. apply Rpower_root_pow; [assumption | lia].
  - assert (E0 : last / first = 0) by lra.
    destruct (Req_dec_T (last / first) 0) as [_ | Hne]; [| contradiction].
    destruct (Rlt_dec 0 (1 / (n - 1))) as [_ | Hne]; [| contradiction].
    split; [intros Hpos; contradiction |]. split; [intros _; reflexivity |].
    split; [lra |].
    replace (1 + (0 - 1)) with 0 by ring.
    rewrite E0. apply pow_i. lia.
Qed.

Lemma discount_cash_flow_cagr_witness :
  let fcf := [-1; 1; 1; 1; 1; 1; 1; 1; 1; 1; 2] in
  let st := Np.mkRandomState (fun _ => 0) 0 in
  let n := INR (length fcf) in
  let mean := fold_right Rplus 0 fcf / n in
  let first := if Rlt_dec (hd 0 fcf) 0 then mean else hd 0 fcf in
  let last := List.last fcf 0 in
  exists c v1 v2 st',
    discount_cash_flow fcf 0.09 0.05 0.1 10 1 st = Ok ((c, v1, v2), st')
    /\ (0 < last / first -> c = Rpower (last / first) (1 / (n - 1)) - 1)
    /\ (last / first = 0 -> c = 0 - 1)
    /\ 0 <= 1 + c
    /\ (1 + c) ^ (length fcf - 1) = last / first.
Proof.
  cbv zeta.
  apply (discount_cash_flow_cagr [-1; 1; 1; 1; 1; 1; 1; 1; 1; 1; 2]).
  - simpl. lia.
  - simpl hd. destruct (Rlt_dec (-1) 0) as [_ | Hn]; [simpl; lra | lra].
  - simpl hd. destruct (Rlt_dec (-1) 0) as [_ | Hn]; [| lra].
    simpl. lra.
Defined.
